(** * Tetris: a shallow embedding of the state-transition engine

    The embedding follows [src/types.ts], [src/util.ts], [src/state.ts] and the
    reducer [handleInput] of [src/main.ts].

    Conventions.
    - Cell values and coordinates are JavaScript numbers that the code only
      ever builds from integers with [+] and [-]; they are modelled by
      [value]: an integer, [NaN], or [undefined] (what an out-of-range array
      read gives).
    - The random numbers ([seed], [rng]) are IEEE-754 doubles and are modelled
      by Rocq's primitive binary64 floats, so [RNG.hash] and [RNG.scale]
      compute exactly what the JavaScript expressions compute.
    - A function of the source that can throw returns a [result]; reading a
      property of [undefined] is [TypeError].  The only recursion of the
      source that need not terminate, [dropOneStepRecursive], takes fuel. *)

From Stdlib Require Import PrimFloat.
From Stdlib Require FloatOps SpecFloat Uint63.
From Stdlib Require Import String Bool ZArith List Lia.
Import ListNotations.

Local Open Scope string_scope.
Local Open Scope list_scope.
Local Open Scope Z_scope.

(** ** JavaScript values and arrays *)

Inductive value : Type :=
| Num (z : Z)
| NaN
| undefined.

(** [a + b] on numbers; [undefined] converts to [NaN]. *)
Definition vadd (a b : value) : value :=
  match a, b with
  | Num p, Num q => Num (p + q)
  | _, _ => NaN
  end.

(** [a - b]. *)
Definition vsub (a b : value) : value :=
  match a, b with
  | Num p, Num q => Num (p - q)
  | _, _ => NaN
  end.

(** [a < b]: false as soon as one side is [NaN] or [undefined]. *)
Definition vlt (a b : value) : bool :=
  match a, b with
  | Num p, Num q => p <? q
  | _, _ => false
  end.

(** [a >= b]. *)
Definition vge (a b : value) : bool :=
  match a, b with
  | Num p, Num q => q <=? p
  | _, _ => false
  end.

(** [v === 1]. *)
Definition is1 (v : value) : bool :=
  match v with
  | Num 1 => true
  | _ => false
  end.

Inductive result (A : Type) : Type :=
| Ok (a : A)
| TypeError
| OutOfFuel.

Arguments Ok {A} a.
Arguments TypeError {A}.
Arguments OutOfFuel {A}.

Definition bind {A B : Type} (c : result A) (k : A -> result B) : result B :=
  match c with
  | Ok a => k a
  | TypeError => TypeError
  | OutOfFuel => OutOfFuel
  end.

Notation "x <- c ;; k" := (bind c (fun x => k))
  (at level 61, c at next level, right associativity).

(** [l[i]] for an integer index: [None] stands for [undefined]. *)
Definition lookup {A : Type} (l : list A) (i : Z) : option A :=
  if i <? 0 then None else nth_error l (Z.to_nat i).

(** [row[i]] where the index is any JavaScript number. *)
Definition cellAt (row : list value) (i : value) : value :=
  match i with
  | Num n => match lookup row n with Some v => v | None => undefined end
  | _ => undefined
  end.

(** [Array.prototype.map] with the index passed to the callback. *)
Fixpoint mapFrom {A B : Type} (f : A -> Z -> B) (i : Z) (l : list A) : list B :=
  match l with
  | [] => []
  | a :: l' => f a i :: mapFrom f (i + 1) l'
  end.

Definition mapi {A B : Type} (f : A -> Z -> B) (l : list A) : list B :=
  mapFrom f 0 l.

(** [Array.prototype.some] with the index; stops at the first [true]. *)
Fixpoint someFrom {A : Type} (f : A -> Z -> bool) (i : Z) (l : list A) : bool :=
  match l with
  | [] => false
  | a :: l' => if f a i then true else someFrom f (i + 1) l'
  end.

Definition some {A : Type} (f : A -> Z -> bool) (l : list A) : bool :=
  someFrom f 0 l.

(** [some] for a callback that may throw. *)
Fixpoint someFromM {A : Type} (f : A -> Z -> result bool) (i : Z) (l : list A)
  : result bool :=
  match l with
  | [] => Ok false
  | a :: l' => b <- f a i ;; if b then Ok true else someFromM f (i + 1) l'
  end.

Definition someM {A : Type} (f : A -> Z -> result bool) (l : list A) : result bool :=
  someFromM f 0 l.

(** [Array.prototype.find] for a callback that may throw. *)
Fixpoint findM {A : Type} (f : A -> result bool) (l : list A) : result (option A) :=
  match l with
  | [] => Ok None
  | a :: l' => b <- f a ;; if b then Ok (Some a) else findM f l'
  end.

(** An object literal with string keys, in insertion order. *)
Definition object (A : Type) : Type := list (string * A).

Fixpoint prop {A : Type} (o : object A) (k : string) : option A :=
  match o with
  | [] => None
  | (k', v) :: o' => if String.eqb k' k then Some v else prop o' k
  end.

Definition keys {A : Type} (o : object A) : list string := map fst o.

(** ** types.ts *)

Definition Matrix : Type := list (list value).

Record Tetromino : Type := mkTetromino {
  key : string;
  orientation : Z;
  shape : Matrix;
  colour : string;
  x : value;
  y : value
}.

Record State : Type := mkState {
  gameEnd : bool;
  gamePause : bool;
  gameRestart : bool;
  grid : Matrix;
  currentTetromino : Tetromino;
  nextTetromino : Tetromino;
  holdTetromino : option Tetromino;
  level : Z;
  score : Z;
  highScore : Z
}.

Definition GRID_WIDTH : Z := 10.
Definition GRID_HEIGHT : Z := 20.

Definition matrix (rows : list (list Z)) : Matrix := map (map Num) rows.

Definition TetrominoShapes : object Matrix :=
  [ ("I", matrix [[0; 0; 0; 0]; [1; 1; 1; 1]; [0; 0; 0; 0]; [0; 0; 0; 0]]);
    ("J", matrix [[1; 0; 0]; [1; 1; 1]; [0; 0; 0]]);
    ("L", matrix [[0; 0; 1]; [1; 1; 1]; [0; 0; 0]]);
    ("O", matrix [[1; 1]; [1; 1]]);
    ("S", matrix [[0; 1; 1]; [1; 1; 0]; [0; 0; 0]]);
    ("T", matrix [[0; 1; 0]; [1; 1; 1]; [0; 0; 0]]);
    ("Z", matrix [[1; 1; 0]; [0; 1; 1]; [0; 0; 0]]) ].

Definition TetrominoColours : object string :=
  [ ("I", "cyan"); ("J", "orange"); ("L", "dodgerblue"); ("O", "yellow");
    ("T", "magenta"); ("S", "green"); ("Z", "red") ].

(** The kick tests shared by J, L, S, T and Z. *)
Definition kicksJLSTZ : list (list (list Z)) :=
  [ [[-1; 0]; [-1; -1]; [0; 2]; [-1; 2]];
    [[1; 0]; [1; 1]; [0; -2]; [1; -2]];
    [[1; 0]; [1; -1]; [0; 2]; [1; 2]];
    [[-1; 0]; [-1; 1]; [0; -2]; [-1; -2]] ].

Definition WallKickData : object (list (list (list Z))) :=
  [ ("I", [ [[-2; 0]; [1; 0]; [-2; 1]; [1; -2]];
            [[-1; 0]; [2; 0]; [-1; -2]; [2; 1]];
            [[2; 0]; [-1; 0]; [2; -1]; [-1; 2]];
            [[1; 0]; [-2; 0]; [1; 2]; [-2; -1]] ]);
    ("J", kicksJLSTZ);
    ("L", kicksJLSTZ);
    ("O", [[[]]]);
    ("S", kicksJLSTZ);
    ("T", kicksJLSTZ);
    ("Z", kicksJLSTZ) ].

(** Record updates, [{ ...t, x: _, y: _ }] and the like. *)
Definition withXY (t : Tetromino) (x' y' : value) : Tetromino :=
  mkTetromino (key t) (orientation t) (shape t) (colour t) x' y'.

Definition withCurrent (s : State) (t : Tetromino) : State :=
  mkState (gameEnd s) (gamePause s) (gameRestart s) (grid s) t
          (nextTetromino s) (holdTetromino s) (level s) (score s) (highScore s).

Definition withGameEnd (s : State) (b : bool) : State :=
  mkState b (gamePause s) (gameRestart s) (grid s) (currentTetromino s)
          (nextTetromino s) (holdTetromino s) (level s) (score s) (highScore s).

Definition withGamePause (s : State) (b : bool) : State :=
  mkState (gameEnd s) b (gameRestart s) (grid s) (currentTetromino s)
          (nextTetromino s) (holdTetromino s) (level s) (score s) (highScore s).

Definition withGameRestart (s : State) (b : bool) : State :=
  mkState (gameEnd s) (gamePause s) b (grid s) (currentTetromino s)
          (nextTetromino s) (holdTetromino s) (level s) (score s) (highScore s).

Definition withHighScore (s : State) (h : Z) : State :=
  mkState (gameEnd s) (gamePause s) (gameRestart s) (grid s) (currentTetromino s)
          (nextTetromino s) (holdTetromino s) (level s) (score s) h.

(** ** util.ts *)

(** [%] on doubles (C's [fmod]): exact, with the sign of the dividend. *)
Definition fmod (a b : float) : float :=
  match FloatOps.Prim2SF a, FloatOps.Prim2SF b with
  | SpecFloat.S754_nan, _ | _, SpecFloat.S754_nan => PrimFloat.nan
  | SpecFloat.S754_infinity _, _ => PrimFloat.nan
  | _, SpecFloat.S754_zero _ => PrimFloat.nan
  | _, SpecFloat.S754_infinity _ => a
  | SpecFloat.S754_zero _, _ => a
  | SpecFloat.S754_finite sa ma ea, SpecFloat.S754_finite _ mb eb =>
      let e := Z.min ea eb in
      let p := Z.pos ma * 2 ^ (ea - e) in
      let q := Z.pos mb * 2 ^ (eb - e) in
      let r := FloatOps.Z.ldexp (PrimFloat.of_uint63 (Uint63.of_Z (Z.rem p q))) e in
      if sa then PrimFloat.opp r else r
  end.

(** [Math.floor] read as an array index: [None] for [NaN] and the infinities,
    which index no element. *)
Definition floor (a : float) : option Z :=
  match FloatOps.Prim2SF a with
  | SpecFloat.S754_zero _ => Some 0
  | SpecFloat.S754_finite s m e =>
      let n := if s then Z.neg m else Z.pos m in
      Some (if 0 <=? e then n * 2 ^ e else n / 2 ^ (- e))
  | _ => None
  end.

Module RNG.

Definition m : float := 0x7FFFFFFF%float.
Definition a : float := 1103515245%float.
Definition c : float := 12345%float.

Definition hash (seed : float) : float :=
  fmod (PrimFloat.add (PrimFloat.mul a seed) c) m.

Definition scale (hash : float) : float :=
  PrimFloat.div hash (PrimFloat.sub m 1%float).

End RNG.

Definition INITIAL_LEVEL : Z := 0.
Definition INITIAL_ORIENTATION : Z := 0.
Definition INITIAL_SCORE : Z := 0.

(** [Math.floor(GRID_WIDTH / 2) - Math.floor(shape[0].length / 2)]; reading
    [shape[0]] of an unknown key, or [.length] of a missing first row, throws. *)
Definition spawnX (sh : option Matrix) : result value :=
  match sh with
  | Some (row0 :: _) => Ok (Num (GRID_WIDTH / 2 - Z.of_nat (length row0) / 2))
  | _ => TypeError
  end.

Definition getRandomTetromino (rng : float) : result Tetromino :=
  let tetrominoKeys := keys TetrominoShapes in
  let randomIndex :=
    floor (PrimFloat.mul rng (PrimFloat.of_uint63 (Uint63.of_Z (Z.of_nat (length tetrominoKeys))))) in
  match match randomIndex with Some i => lookup tetrominoKeys i | None => None end with
  | None => TypeError
  | Some randomTetrominoKey =>
      match prop TetrominoShapes randomTetrominoKey,
            prop TetrominoColours randomTetrominoKey with
      | Some sh, Some col =>
          x0 <- spawnX (Some sh) ;;
          Ok (mkTetromino randomTetrominoKey INITIAL_ORIENTATION sh col x0 (Num (-2)))
      | _, _ => TypeError
      end
  end.

Definition emptyGrid : Matrix :=
  repeat (repeat (Num 0) (Z.to_nat GRID_WIDTH)) (Z.to_nat GRID_HEIGHT).

Definition INITIAL_STATE (INITIAL_SEED : float) : result State :=
  cur <- getRandomTetromino INITIAL_SEED ;;
  nxt <- getRandomTetromino
           (RNG.scale (RNG.hash (PrimFloat.mul INITIAL_SEED 314159%float))) ;;
  Ok (mkState false false false emptyGrid cur nxt None
              INITIAL_LEVEL INITIAL_SCORE INITIAL_SCORE).

(** ** state.ts *)

(** [grid[newY][newX] === 1]: reading [[newX]] of a missing row throws. *)
Definition gridIs1 (grid : Matrix) (newY newX : value) : result bool :=
  match newY with
  | Num n =>
      match lookup grid n with
      | Some row => Ok (is1 (cellAt row newX))
      | None => TypeError
      end
  | _ => TypeError
  end.

Definition isCollision (x y : value) (shape grid : Matrix) : result bool :=
  someM (fun row yBlock =>
    someM (fun cell xBlock =>
      if is1 cell then
        let newX := vadd x (Num xBlock) in
        let newY := vadd y (Num yBlock) in
        if vge newY (Num GRID_HEIGHT)
           || vlt newX (Num 0)
           || vge newX (Num GRID_WIDTH)
        then Ok true
        else if vge newY (Num 0) then gridIs1 grid newY newX
        else Ok false
      else Ok false) row) shape.

Definition isOutOfBounds (x y : value) (shape : Matrix) : bool :=
  some (fun row yBlock =>
    some (fun cell xBlock =>
      if is1 cell then
        let newX := vadd x (Num xBlock) in
        let newY := vadd y (Num yBlock) in
        vlt newX (Num 0)
        || vge newX (Num GRID_WIDTH)
        || vge newY (Num GRID_HEIGHT)
      else false) row) shape.

Definition isSettled (currentTetromino : Tetromino) (grid : Matrix) : result bool :=
  let yDownByOne := vadd (y currentTetromino) (Num 1) in
  c <- isCollision (x currentTetromino) yDownByOne (shape currentTetromino) grid ;;
  if c then Ok true
  else Ok (isOutOfBounds (x currentTetromino) yDownByOne (shape currentTetromino)).

Definition isGameEnd (s : State) : result bool :=
  st <- isSettled (currentTetromino s) (grid s) ;;
  if st && vlt (y (currentTetromino s)) (Num 0) then
    match shape (currentTetromino s) with
    | row0 :: _ => Ok (existsb is1 row0)
    | [] => TypeError
    end
  else Ok false.

Definition moveTetromino (s : State) (xOffset yOffset : Z) : result State :=
  let movedTetromino :=
    withXY (currentTetromino s)
           (vadd (x (currentTetromino s)) (Num xOffset))
           (vadd (y (currentTetromino s)) (Num yOffset)) in
  c <- isCollision (x movedTetromino) (y movedTetromino) (shape movedTetromino) (grid s) ;;
  if c || isOutOfBounds (x movedTetromino) (y movedTetromino) (shape movedTetromino)
  then Ok s
  else Ok (withCurrent s movedTetromino).

(** Transpose, then reverse every row; [matrix[0]] of an empty array is
    [undefined] and its [.map] throws. *)
Definition rotateMatrix (matrix : Matrix) : result Matrix :=
  match matrix with
  | [] => TypeError
  | row0 :: _ =>
      let transposedMatrix :=
        mapi (fun _ i => map (fun row => cellAt row (Num i)) matrix) row0 in
      Ok (map (fun row => rev row) transposedMatrix)
  end.

(** [test[i]] of a kick offset. *)
Definition offsetAt (test : list Z) (i : Z) : value :=
  match lookup test i with
  | Some d => Num d
  | None => undefined
  end.

Definition attemptWallKick (currentTetromino rotatedTetromino : Tetromino)
                           (grid : Matrix) : result (option Tetromino) :=
  match prop WallKickData (key currentTetromino) with
  | None => TypeError
  | Some wallKickDataTetromino =>
      match lookup wallKickDataTetromino (orientation currentTetromino) with
      | None => TypeError
      | Some wallKickTests =>
          validWallKick <-
            findM (fun test =>
                     let adjustedTetromino :=
                       withXY rotatedTetromino
                              (vadd (x rotatedTetromino) (offsetAt test 0))
                              (vadd (y rotatedTetromino) (offsetAt test 1)) in
                     c <- isCollision (x adjustedTetromino) (y adjustedTetromino)
                                      (shape adjustedTetromino) grid ;;
                     if negb c
                     then Ok (negb (isOutOfBounds (x adjustedTetromino)
                                                  (y adjustedTetromino)
                                                  (shape adjustedTetromino)))
                     else Ok false)
                  wallKickTests ;;
          match validWallKick with
          | Some test =>
              Ok (Some (withXY rotatedTetromino
                               (vadd (x rotatedTetromino) (offsetAt test 0))
                               (vadd (y rotatedTetromino) (offsetAt test 1))))
          | None => Ok None
          end
      end
  end.

Definition rotateTetromino (s : State) : result State :=
  rotatedShape <- rotateMatrix (shape (currentTetromino s)) ;;
  let rotatedTetromino :=
    mkTetromino (key (currentTetromino s))
                (Z.rem (orientation (currentTetromino s) + 1) 4)
                rotatedShape
                (colour (currentTetromino s))
                (x (currentTetromino s))
                (y (currentTetromino s)) in
  c <- isCollision (x rotatedTetromino) (y rotatedTetromino)
                   (shape rotatedTetromino) (grid s) ;;
  if negb c && negb (isOutOfBounds (x rotatedTetromino) (y rotatedTetromino)
                                   (shape rotatedTetromino))
  then Ok (withCurrent s rotatedTetromino)
  else
    wallKickedTetromino <- attemptWallKick (currentTetromino s) rotatedTetromino (grid s) ;;
    match wallKickedTetromino with
    | Some t => Ok (withCurrent s t)
    | None => Ok s
    end.

Definition isFull (row : list value) : bool := forallb is1 row.

Definition clearCompletedRows (grid : Matrix) : Matrix * Z :=
  let fullRows := filter isFull grid in
  match fullRows with
  | [] => (grid, 0)
  | _ =>
      let numFullRows := List.length fullRows in
      let clearedGrid :=
        repeat (repeat (Num 0) (Z.to_nat GRID_WIDTH)) numFullRows
        ++ filter (fun row => negb (isFull row)) grid in
      (clearedGrid, Z.of_nat numFullRows)
  end.

Definition updateState (s : State) (key : string) : result State :=
  if String.eqb key "ArrowLeft" then moveTetromino s (-1) 0
  else if String.eqb key "ArrowRight" then moveTetromino s 1 0
  else if String.eqb key "ArrowDown" then moveTetromino s 0 1
  else if String.eqb key "ArrowUp" then rotateTetromino s
  else Ok s.

Fixpoint dropOneStepRecursive (fuel : nat) (currentState : State) : result State :=
  match fuel with
  | O => OutOfFuel
  | S fuel' =>
      st <- isSettled (currentTetromino currentState) (grid currentState) ;;
      if st then Ok currentState
      else
        nextState <- moveTetromino currentState 0 1 ;;
        dropOneStepRecursive fuel' nextState
  end.

Definition dropTetromino (fuel : nat) (s : State) : result State :=
  dropOneStepRecursive fuel s.

Definition resetPosition (tetromino : Tetromino) : result Tetromino :=
  match prop TetrominoShapes (key tetromino) with
  | Some sh =>
      x0 <- spawnX (Some sh) ;;
      Ok (mkTetromino (key tetromino) INITIAL_ORIENTATION sh (colour tetromino)
                      x0 (Num (-2)))
  | None => TypeError
  end.

Definition holdState (s : State) (tickRng : float) : result State :=
  match holdTetromino s with
  | None =>
      nxt <- getRandomTetromino tickRng ;;
      held <- resetPosition (currentTetromino s) ;;
      Ok (mkState (gameEnd s) (gamePause s) false (grid s)
                  (nextTetromino s) nxt (Some held)
                  (level s) (score s) (highScore s))
  | Some h =>
      cur <- resetPosition h ;;
      held <- resetPosition (currentTetromino s) ;;
      Ok (mkState (gameEnd s) (gamePause s) false (grid s)
                  cur (nextTetromino s) (Some held)
                  (level s) (score s) (highScore s))
  end.

(** [shape[yTetromino][xTetromino]]. *)
Definition shapeAt (shape : Matrix) (yTetromino xTetromino : value) : value :=
  match yTetromino with
  | Num n => match lookup shape n with
             | Some row => cellAt row xTetromino
             | None => undefined
             end
  | _ => undefined
  end.

Definition updateGrid (grid : Matrix) (currentTetromino : Tetromino) : result Matrix :=
  let xPivot := x currentTetromino in
  let yPivot := y currentTetromino in
  let yLength := Num (Z.of_nat (List.length (shape currentTetromino))) in
  match shape currentTetromino with
  | [] => TypeError
  | row0 :: _ =>
      let xLength := Num (Z.of_nat (List.length row0)) in
      Ok (mapi (fun row yIndex =>
                  mapi (fun cell xIndex =>
                          let isOverlap :=
                            vge (Num yIndex) yPivot
                            && vlt (Num yIndex) (vadd yPivot yLength)
                            && vge (Num xIndex) xPivot
                            && vlt (Num xIndex) (vadd xPivot xLength) in
                          if isOverlap then
                            let yTetromino := vsub (Num yIndex) yPivot in
                            let xTetromino := vsub (Num xIndex) xPivot in
                            vadd cell (shapeAt (shape currentTetromino) yTetromino xTetromino)
                          else cell) row) grid)
  end.

Definition tick (s : State) (rng : float) : result State :=
  e <- isGameEnd s ;;
  if e then Ok (withGameEnd s true)
  else
    st <- isSettled (currentTetromino s) (grid s) ;;
    if st then
      updatedGrid <- updateGrid (grid s) (currentTetromino s) ;;
      let '(clearedGrid, numFullRows) := clearCompletedRows updatedGrid in
      let newScore := score s + numFullRows * 100 in
      nxt <- getRandomTetromino rng ;;
      Ok (mkState (gameEnd s) (gamePause s) (gameRestart s)
                  clearedGrid
                  (nextTetromino s)
                  nxt
                  (holdTetromino s)
                  (newScore / 1000)
                  newScore
                  (if highScore s <? newScore then newScore else highScore s))
    else if gamePause s || gameEnd s then Ok s
    else
      moved <- moveTetromino s 0 1 ;;
      Ok (withGameRestart moved false).

Definition hardDrop (fuel : nat) (s : State) (rng : float) : result State :=
  dropped <- dropTetromino fuel s ;;
  tick dropped rng.

(** ** main.ts: the reducer *)

(** The element a click lands on. *)
Inductive EventTarget : Type :=
| pauseButton
| restartButton
| otherElement.

(** [Input = number | KeyboardEvent | MouseEvent | [number, KeyboardEvent]];
    a keyboard event is read through its [code] only, a mouse event through
    its [target]. *)
Inductive Input : Type :=
| InNumber (rng : float)
| InKeyboard (code : string)
| InMouse (target : EventTarget)
| InPair (rng : float) (code : string).

Definition isMovement (s : State) (input : Input) : bool :=
  match input with
  | InKeyboard _ => negb (gameEnd s) && negb (gamePause s)
  | _ => false
  end.

Definition isPause (input : Input) : bool :=
  match input with
  | InMouse pauseButton => true
  | _ => false
  end.

Definition isRestart (input : Input) : bool :=
  match input with
  | InMouse restartButton => true
  | _ => false
  end.

Definition isHardDrop (s : State) (input : Input) : bool :=
  match input with
  | InPair _ code => String.eqb code "Space" && negb (gameEnd s) && negb (gamePause s)
  | _ => false
  end.

Definition isHold (s : State) (input : Input) : bool :=
  match input with
  | InPair _ code => String.eqb code "KeyC" && negb (gameEnd s) && negb (gamePause s)
  | _ => false
  end.

(** [currInput as number] used in arithmetic: an event object or an array
    holding one converts to [NaN]. *)
Definition asNumber (input : Input) : float :=
  match input with
  | InNumber rng => rng
  | _ => nan
  end.

Section Reducer.

(** [INITIAL_SEED = Math.random()], fixed when the module is loaded. *)
Variable INITIAL_SEED : float.

Definition handleInput (fuel : nat) (s : State) (currInput : Input) : result State :=
  if isMovement s currInput then
    match currInput with
    | InKeyboard code =>
        s' <- updateState s code ;;
        Ok (withGameRestart s' false)
    | _ => Ok s
    end
  else if isPause currInput then
    Ok (withGameRestart (withGamePause s (negb (gamePause s))) false)
  else if isRestart currInput then
    init <- INITIAL_STATE INITIAL_SEED ;;
    Ok (withHighScore (withGameRestart init true) (highScore s))
  else if isHardDrop s currInput then
    match currInput with
    | InPair tickRng _ => hardDrop fuel s tickRng
    | _ => Ok s
    end
  else if isHold s currInput then
    match currInput with
    | InPair tickRng _ =>
        s' <- holdState s tickRng ;;
        Ok (withGameRestart s' false)
    | _ => Ok s
    end
  else if gameEnd s || gamePause s then Ok s
  else tick s (asNumber currInput).

(** The states the [scan] of [main] can hold. *)
Inductive reachable : State -> Prop :=
| reach_init (s0 : State) :
    INITIAL_STATE INITIAL_SEED = Ok s0 -> reachable s0
| reach_step (s s' : State) (fuel : nat) (i : Input) :
    reachable s -> handleInput fuel s i = Ok s' -> reachable s'.

End Reducer.

(** ** Conditions named by the specification, and concrete states *)

(** Some occupied cell of the piece lies at a grid row above the top
    (row < 0): the end condition as the specification words it. *)
Definition overlapsTop (t : Tetromino) : bool :=
  some (fun row yBlock =>
          existsb is1 row && vlt (vadd (y t) (Num yBlock)) (Num 0))
       (shape t).

(** The key names one of the seven shape kinds. *)
Definition isKind (k : string) : bool :=
  existsb (String.eqb k) (keys TetrominoShapes).

(** The placement test of [rotateTetromino] and [attemptWallKick]:
    [!isCollision(..) && !isOutOfBounds(..)]. *)
Definition isLegal (t : Tetromino) (grid : Matrix) : result bool :=
  c <- isCollision (x t) (y t) (shape t) grid ;;
  if negb c then Ok (negb (isOutOfBounds (x t) (y t) (shape t))) else Ok false.

(** The rotated piece before any kick. *)
Definition rotated (t : Tetromino) (rotatedShape : Matrix) : Tetromino :=
  mkTetromino (key t) (Z.rem (orientation t + 1) 4) rotatedShape (colour t) (x t) (y t).

(** A rotated piece shifted by a kick offset. *)
Definition kicked (t : Tetromino) (test : list Z) : Tetromino :=
  withXY t (vadd (x t) (offsetAt test 0)) (vadd (y t) (offsetAt test 1)).

(** Four quarter turns. *)
Definition rotateMatrix4 (matrix : Matrix) : result Matrix :=
  m1 <- rotateMatrix matrix ;;
  m2 <- rotateMatrix m1 ;;
  m3 <- rotateMatrix m2 ;;
  rotateMatrix m3.

(** The piece of kind [k] as [getRandomTetromino] builds it. *)
Definition spawned (k : string) : Tetromino :=
  let sh := match prop TetrominoShapes k with Some sh => sh | None => [] end in
  let col := match prop TetrominoColours k with Some c => c | None => "" end in
  mkTetromino k INITIAL_ORIENTATION sh col
              (Num (GRID_WIDTH / 2 - Z.of_nat (List.length (hd [] sh)) / 2))
              (Num (-2)).

(** A running game with nothing held and no score yet. *)
Definition running (g : Matrix) (cur nxt : Tetromino) : State :=
  mkState false false false g cur nxt None 0 0 0.

(** Column 4 filled up to the top row, as after five upright I pieces. *)
Definition towerGrid : Matrix :=
  repeat (map Num [0; 0; 0; 0; 1; 0; 0; 0; 0; 0]) (Z.to_nat GRID_HEIGHT).

(** A flat I piece that has just spawned above the tower. *)
Definition blockedI : State := running towerGrid (spawned "I") (spawned "L").

(** A T piece that has just spawned above the tower. *)
Definition blockedT : State := running towerGrid (spawned "T") (spawned "L").

(** An O piece resting on the floor of an empty grid. *)
Definition restingO : State :=
  running emptyGrid (withXY (spawned "O") (Num 4) (Num 18)) (spawned "T").

(** An I piece three rows into an empty grid. *)
Definition fallingI : State :=
  running emptyGrid (withXY (spawned "I") (Num 3) (Num 1)) (spawned "L").

(** An O piece sharing cells with the tower, in spawn orientation and after
    one quarter turn. *)
Definition stuckO (o : Z) : State :=
  running towerGrid
          (mkTetromino "O" o (matrix [[1; 1]; [1; 1]]) "yellow" (Num 4) (Num 0))
          (spawned "T").

(** A T piece against the left wall, upright. *)
Definition wallT : State :=
  running emptyGrid
          (mkTetromino "T" 1 (matrix [[0; 1; 0]; [0; 1; 1]; [0; 1; 0]]) "magenta"
                       (Num (-1)) (Num 5))
          (spawned "L").

(** Values [Math.random()] can return (multiples of 2^-53 below 1). *)
Definition sampleSeed : float := 0.5%float.
Definition unluckySeed : float := 0x1.03d186056990ep-1%float.

(** An [n] by [n] matrix. *)
Definition square (n : nat) (m : Matrix) : Prop :=
  List.length m = n /\ Forall (fun row => List.length row = n) m.

(** The quarter turn of an [n] by [n] matrix, cell by cell. *)
Definition quarterTurn (n : nat) (m : Matrix) : Matrix :=
  map (fun i => rev (map (fun row => nth i row undefined) m)) (seq 0 n).

(** [m[i][j]] with natural indices. *)
Definition cell (m : Matrix) (i j : nat) : value :=
  nth j (nth i m []) undefined.

(** The shape has an occupied cell. *)
Definition hasCell (shape : Matrix) : bool := existsb (existsb is1) shape.

(** The grid has its [GRID_HEIGHT] rows. *)
Definition fullHeight (grid : Matrix) : Prop :=
  List.length grid = Z.to_nat GRID_HEIGHT.

(** The wall-kick tests keyed by shape kind and orientation. *)
Definition kickTests (k : string) (o : Z) : option (list (list Z)) :=
  match prop WallKickData k with
  | Some table => lookup table o
  | None => None
  end.

(** [isLegal] as a boolean, where a throw counts as illegal. *)
Definition isLegalB (t : Tetromino) (grid : Matrix) : bool :=
  match isLegal t grid with
  | Ok b => b
  | _ => false
  end.

(** The score is not negative and the high score is not below it. *)
Definition scoresOrdered (s : State) : Prop := 0 <= score s <= highScore s.

(** The click on the restart button. *)
Definition restartClick : Input := InMouse restartButton.

(** ** The rest of types.ts, util.ts, main.ts and view.ts *)

Module Viewport.
Definition CANVAS_WIDTH : Z := 200.
Definition CANVAS_HEIGHT : Z := 400.
Definition PREVIEW_WIDTH : Z := 160.
Definition PREVIEW_HEIGHT : Z := 80.
Definition HOLD_WIDTH : Z := 160.
Definition HOLD_HEIGHT : Z := 80.
End Viewport.

Module Constants.
Definition TICK_RATE_MS : Z := 500.
Definition MINIMUM_TICKRATE : Z := 25.
Definition TICKRATE_INCREMENT : Z := 50.
End Constants.

Module Block.
Definition WIDTH : Z := Viewport.CANVAS_WIDTH / GRID_WIDTH.
Definition HEIGHT : Z := Viewport.CANVAS_HEIGHT / GRID_HEIGHT.
End Block.

(** [a * b] on numbers. *)
Definition vmul (a b : value) : value :=
  match a, b with
  | Num p, Num q => Num (p * q)
  | _, _ => NaN
  end.

(** main.ts, [rate$]: the tick interval in milliseconds at a level. *)
Definition tickRate (level : Z) : Z :=
  Z.max (Constants.TICK_RATE_MS - level * Constants.TICKRATE_INCREMENT)
        Constants.MINIMUM_TICKRATE.

(** RxJS [scan] with a seed, over the values a source has emitted so far:
    one accumulated value per source value, the seed itself not emitted. *)
Fixpoint scan {A B : Type} (f : B -> A -> B) (acc : B) (source : list A) : list B :=
  match source with
  | [] => []
  | a :: source' => let acc' := f acc a in acc' :: scan f acc' source'
  end.

(** util.ts: the random numbers drawn in step with a source. *)
Definition createRngStreamFromSource {T : Type} (source : list T) (seed : float)
  : list float :=
  map RNG.scale (scan (fun prevSeed _ => RNG.hash prevSeed) seed source).

(** view.ts.  An element is read as the list of children appended to it; a
    rect child is kept with its numeric attributes and its fill colour. *)
Record Rect : Type := mkRect {
  rectHeight : Z;
  rectWidth : Z;
  rectX : value;
  rectY : value;
  rectFill : string
}.

Definition createAndAppendRect (x y : value) (fill : string) (e : list Rect)
  : list Rect :=
  e ++ [mkRect Block.HEIGHT Block.WIDTH
               (vmul (Num Block.WIDTH) x) (vmul (Num Block.HEIGHT) y) fill].

(** [Array.prototype.forEach] with the index, threading the element the
    callback appends to. *)
Fixpoint forEachFrom {A S : Type} (f : S -> A -> Z -> S) (i : Z) (l : list A) (st : S) : S :=
  match l with
  | [] => st
  | a :: l' => forEachFrom f (i + 1) l' (f st a i)
  end.

Definition forEach {A S : Type} (f : S -> A -> Z -> S) (l : list A) (st : S) : S :=
  forEachFrom f 0 l st.

Definition renderCurrentTetromino (s : State) (element : list Rect) : list Rect :=
  forEach (fun el row y0 =>
    forEach (fun el' cell x0 =>
      if is1 cell then
        let blockX := vadd (x (currentTetromino s)) (Num x0) in
        let blockY := vadd (y (currentTetromino s)) (Num y0) in
        createAndAppendRect blockX blockY (colour (currentTetromino s)) el'
      else el') row el) (shape (currentTetromino s)) element.

Definition renderExistingTetrominoes (s : State) (element : list Rect) : list Rect :=
  forEach (fun el row y0 =>
    forEach (fun el' cell x0 =>
      if is1 cell then createAndAppendRect (Num x0) (Num y0) "gray" el'
      else el') row el) (grid s) element.

(** The preview of a piece, as [renderNextTetromino] and
    [renderHoldTetromino] draw it: [Math.ceil(shape[0].length / 2)] is read
    inside the loop over the shape, where a first row exists. *)
Definition renderPreview (t : Tetromino) (element : list Rect) : list Rect :=
  forEach (fun el row y0 =>
    forEach (fun el' cell x0 =>
      if is1 cell then
        let blockX :=
          Num (x0 + 4 - (Z.of_nat (List.length (hd [] (shape t))) + 1) / 2) in
        let blockY := Num (y0 + 1) in
        createAndAppendRect blockX blockY (colour t) el'
      else el') row el) (shape t) element.

Definition renderNextTetromino (s : State) (element : list Rect) : list Rect :=
  renderPreview (nextTetromino s) element.

Definition renderHoldTetromino (s : State) (element : list Rect) : list Rect :=
  match holdTetromino s with
  | Some h => renderPreview h element
  | None => element
  end.



(** ** Well-formed states *)

(** A cell holds 0 or 1. *)
Definition isBinary (v : value) : bool :=
  match v with
  | Num 0 | Num 1 => true
  | _ => false
  end.

(** The grid has [GRID_HEIGHT] rows of [GRID_WIDTH] cells, each 0 or 1. *)
Definition gridShape (g : Matrix) : Prop :=
  fullHeight g
  /\ Forall (fun row => List.length row = Z.to_nat GRID_WIDTH
                        /\ Forall (fun v => isBinary v = true) row) g.

(** The grid has [GRID_HEIGHT] rows of [GRID_WIDTH] cells, each 0 or 1, and
    no row is full. *)
Definition gridOk (g : Matrix) : Prop :=
  fullHeight g
  /\ Forall (fun row => List.length row = Z.to_nat GRID_WIDTH
                        /\ Forall (fun v => isBinary v = true) row
                        /\ isFull row = false) g.

(** The shape is a non-empty square of cells holding 0 or 1. *)
Definition shapeOkB (sh : Matrix) : bool :=
  negb (Nat.eqb (List.length sh) 0)
  && forallb (fun row => Nat.eqb (List.length row) (List.length sh)
                         && forallb isBinary row) sh.

(** [n] quarter turns. *)
Fixpoint turns (n : nat) (m : Matrix) : result Matrix :=
  match n with
  | O => Ok m
  | S n' => m' <- rotateMatrix m ;; turns n' m'
  end.

(** The shape of kind [k] after [o] quarter turns from its spawn shape. *)
Definition shapeOf (k : string) (o : Z) : result Matrix :=
  match prop TetrominoShapes k with
  | Some sh => turns (Z.to_nat o) sh
  | None => TypeError
  end.

(** The piece is of one of the seven kinds, in one of its four orientations,
    with the shape and colour of that kind, at integer coordinates. *)
Definition validPiece (t : Tetromino) : Prop :=
  isKind (key t) = true
  /\ 0 <= orientation t < 4
  /\ shapeOf (key t) (orientation t) = Ok (shape t)
  /\ prop TetrominoColours (key t) = Some (colour t)
  /\ (exists x0 y0, x t = Num x0 /\ y t = Num y0).

(** The piece is one that [getRandomTetromino] builds. *)
Definition freshPiece (t : Tetromino) : Prop :=
  exists k, isKind k = true /\ t = spawned k.

(** The invariant of the game: a well-formed grid, an active piece that is
    valid and legally placed, fresh next and held pieces, and a level that
    follows the score. *)
Definition wellFormed (s : State) : Prop :=
  gridOk (grid s)
  /\ validPiece (currentTetromino s)
  /\ isLegal (currentTetromino s) (grid s) = Ok true
  /\ freshPiece (nextTetromino s)
  /\ (forall h, holdTetromino s = Some h -> freshPiece h)
  /\ level s = score s / 1000
  /\ (exists n, 0 <= n /\ score s = 100 * n).

(** A keyboard event, a click on one of the two buttons, or a number or
    pair whose random number draws a piece. *)
Definition usableInput (i : Input) : Prop :=
  match i with
  | InNumber rng => exists t, getRandomTetromino rng = Ok t
  | InKeyboard _ => True
  | InMouse target => target <> otherElement
  | InPair rng code =>
      (code = "Space" \/ code = "KeyC") /\ exists t, getRandomTetromino rng = Ok t
  end.

(** The start of a game for a seed, and the state after a hard drop of the
    first piece. *)
Definition startOf (seed : float) : State :=
  match INITIAL_STATE seed with
  | Ok s => s
  | _ => running emptyGrid (spawned "I") (spawned "I")
  end.

Definition afterDrop : State :=
  match handleInput sampleSeed 30 (startOf sampleSeed) (InPair sampleSeed "Space") with
  | Ok s => s
  | _ => startOf sampleSeed
  end.

(** The click on the pause button. *)
Definition pauseClick : Input := InMouse pauseButton.

(** A game that is paused, with a piece three rows into an empty grid. *)
Definition pausedI : State := withGamePause fallingI true.






(** A rect lies inside a box of the given width and height. *)
Definition insideBox (width height : Z) (r : Rect) : Prop :=
  exists px py, rectX r = Num px /\ rectY r = Num py
                /\ 0 <= px /\ px + rectWidth r <= width
                /\ 0 <= py /\ py + rectHeight r <= height.

(** The rects appended for the occupied cells of a matrix, row by row. *)
Definition cellRects (mk : Z -> Z -> Rect) (m : Matrix) : list Rect :=
  concat (mapFrom (fun row y0 =>
            concat (mapFrom (fun cell x0 => if is1 cell then [mk x0 y0] else [])
                            0 row)) 0 m).

(** The piece turned by [n] quarter turns about its anchor. *)
Definition turned (t : Tetromino) (n : Z) : Tetromino :=
  match shapeOf (key t) ((orientation t + n) mod 4) with
  | Ok sh => mkTetromino (key t) ((orientation t + n) mod 4) sh (colour t) (x t) (y t)
  | _ => t
  end.

(** Four rotations in a row. *)
Definition rotateTetromino4 (s : State) : result State :=
  s1 <- rotateTetromino s ;;
  s2 <- rotateTetromino s1 ;;
  s3 <- rotateTetromino s2 ;;
  rotateTetromino s3.

(** ** Exact integers *)

(** The numbers of the code are binary64 doubles, on which the sum of two
    integers is the integer sum as long as it stays within 2^53.
    [exactInt z] keeps [z] within 2^51, far enough inside that range for
    the sums and differences the code forms from it (a coordinate with an
    offset or an index, a score with the gain of a tick) to be exact. *)
Definition EXACT_RANGE : Z := 2251799813685248.

Definition exactInt (z : Z) : Prop := - EXACT_RANGE <= z <= EXACT_RANGE.

(** The piece has an occupied cell at row [r], column [c] of the grid. *)
Definition covers (t : Tetromino) (r c : nat) : bool :=
  is1 (shapeAt (shape t) (vsub (Num (Z.of_nat r)) (y t))
                         (vsub (Num (Z.of_nat c)) (x t))).

(** ** Plays *)

(** The state the [scan] of [main] holds after the given inputs. *)
Definition play (seed : float) (fuel : nat) (inputs : list Input) : result State :=
  fold_left (fun acc i => s <- acc ;; handleInput seed fuel s i)
            inputs (INITIAL_STATE seed).

(** Turn the piece upright, shift it by one column and drop it; the next
    piece drawn is an I piece. *)
Definition uprightI (shift : string) : list Input :=
  [InKeyboard "ArrowUp"; InKeyboard shift; InPair 0%float "Space"].

(** Five upright I pieces in column 4, then five in column 6. *)
Definition twoTowers : list Input :=
  concat (repeat (uprightI "ArrowLeft") 5)
  ++ concat (repeat (uprightI "ArrowRight") 5).

(** Then the next I piece is turned upright between the towers, turned
    again, which kicks it two rows up, and moved to the left wall. *)
Definition kickedUp : list Input :=
  twoTowers ++ [InKeyboard "ArrowUp"; InKeyboard "ArrowUp";
                InKeyboard "ArrowLeft"; InKeyboard "ArrowLeft"].

(** The state after that play from seed 0, whose two first pieces are I
    pieces. *)
Definition liftedI : State :=
  match play 0%float 40 kickedUp with
  | Ok s => s
  | _ => fallingI
  end.

(** * Properties *)

(** Case analysis on the outcome of the first call of a sequence; the
    throwing and out-of-fuel outcomes close when the sequence is known to
    return. *)
Ltac case_bind :=
  match goal with
  | |- context [bind ?c _] =>
      let E := fresh "E" in
      destruct c eqn:E; cbn [bind]; try discriminate
  end.

(** ** Row clearing *)

Lemma filter_none_keeps_all {A : Type} (f : A -> bool) (l : list A) :
  filter f l = [] -> filter (fun a => negb (f a)) l = l.
Proof.
  induction l as [|a l IH]; simpl; intros H; [reflexivity|].
  destruct (f a); [discriminate H|].
  simpl. f_equal. apply IH, H.
Qed.

Lemma clearCompletedRows_rows (grid : Matrix) :
  clearCompletedRows grid =
    (repeat (repeat (Num 0) (Z.to_nat GRID_WIDTH)) (List.length (filter isFull grid))
       ++ filter (fun row => negb (isFull row)) grid,
     Z.of_nat (List.length (filter isFull grid))).
Proof.
  unfold clearCompletedRows.
  destruct (filter isFull grid) as [|r rs] eqn:E; [|reflexivity].
  rewrite (filter_none_keeps_all _ _ E). reflexivity.
Qed.

(** C7. With [k] the number of full rows of the grid (rows whose cells all
    equal 1), [clearCompletedRows] returns [k] rows of [GRID_WIDTH] zeros
    followed by the rows that are not full, in their original order, and the
    count [k]; when [k = 0] the grid comes back as it was. *)
Theorem clearCompletedRows_spec (grid : Matrix) :
  let k := List.length (filter isFull grid) in
  clearCompletedRows grid =
    (repeat (repeat (Num 0) (Z.to_nat GRID_WIDTH)) k
       ++ filter (fun row => negb (isFull row)) grid,
     Z.of_nat k)
  /\ (k = 0%nat -> clearCompletedRows grid = (grid, 0)).
Proof.
  cbn zeta. split; [apply clearCompletedRows_rows|].
  unfold clearCompletedRows.
  destruct (filter isFull grid) as [|r rs]; [reflexivity|discriminate].
Qed.

(** ** The random number generator *)

(** C2. A counterexample to the range [0, 1): started from the seed
    [unluckySeed], a value of [Math.random()], the second number of the
    stream is [scale (hash (hash seed)) = 1] exactly, because the hash is
    [m - 1]; the piece index is then 7 and [getRandomTetromino] throws. *)
Theorem scale_hash_reaches_one :
  RNG.hash (RNG.hash unluckySeed) = PrimFloat.sub RNG.m 1%float
  /\ RNG.scale (RNG.hash (RNG.hash unluckySeed)) = 1%float
  /\ PrimFloat.ltb (RNG.scale (RNG.hash (RNG.hash unluckySeed))) 1%float = false
  /\ floor (PrimFloat.mul (RNG.scale (RNG.hash (RNG.hash unluckySeed))) 7%float) = Some 7
  /\ getRandomTetromino (RNG.scale (RNG.hash (RNG.hash unluckySeed))) = TypeError.
Proof.
  repeat split; vm_compute; reflexivity.
Qed.

(** ** Wall kicks of the O piece *)

(** C4, as stated, fails: the table entry of "O" is [[[[]]]], one
    orientation entry holding one candidate, the empty offset, and not an
    empty list.  For an O piece in spawn orientation whose in-place rotation
    collides, that candidate is tried, its missing components make the
    coordinates [NaN], no check fails on [NaN], and the piece is returned
    at ([NaN], [NaN]), not the original state; after a quarter turn the
    table has no entry and the rotation throws. *)
Theorem wallKick_O_not_empty :
  prop WallKickData "O" = Some [[[]]]
  /\ lookup [[[]: list Z]] 0 = Some [[]]
  /\ (rsh <- rotateMatrix (shape (currentTetromino (stuckO 0))) ;;
      isLegal (rotated (currentTetromino (stuckO 0)) rsh) (grid (stuckO 0))) = Ok false
  /\ rotateTetromino (stuckO 0) =
       Ok (withCurrent (stuckO 0)
             (mkTetromino "O" 1 (matrix [[1; 1]; [1; 1]]) "yellow" NaN NaN))
  /\ rotateTetromino (stuckO 1) = TypeError.
Proof.
  repeat split; vm_compute; reflexivity.
Qed.

(** The other six kinds have, at each orientation 0..3, four offsets of two
    components each. *)
Lemma kickTests_other_kinds :
  forallb (fun k =>
    forallb (fun o =>
      match kickTests k o with
      | Some tests =>
          (Z.of_nat (List.length tests) =? 4)
          && forallb (fun test => Z.of_nat (List.length test) =? 2) tests
      | None => false
      end) [0; 1; 2; 3]) ["I"; "J"; "L"; "S"; "T"; "Z"] = true.
Proof.
  vm_compute. reflexivity.
Qed.

(** ** The end of the game *)

(** C1. A flat I piece that has just spawned (anchor row -2, its cells on row
    -1) above a column that reaches row 0 is settled and overlaps the top,
    yet [isGameEnd] is false, because it looks at the first row of the shape
    only: [tick] merges the piece, none of whose cells reach the grid, and
    goes on with the next piece. *)
Theorem tick_misses_piece_above_top :
  isSettled (currentTetromino blockedI) (grid blockedI) = Ok true
  /\ overlapsTop (currentTetromino blockedI) = true
  /\ isGameEnd blockedI = Ok false
  /\ exists nxt,
       getRandomTetromino sampleSeed = Ok nxt
       /\ tick blockedI sampleSeed =
            Ok (mkState false false false (grid blockedI)
                        (nextTetromino blockedI) nxt None 0 0 0).
Proof.
  repeat split; try (vm_compute; reflexivity).
  eexists. split; vm_compute; reflexivity.
Qed.

Lemma isGameEnd_true_iff (s : State) :
  isGameEnd s = Ok true <->
  isSettled (currentTetromino s) (grid s) = Ok true
  /\ vlt (y (currentTetromino s)) (Num 0) = true
  /\ existsb is1 (hd [] (shape (currentTetromino s))) = true.
Proof.
  unfold isGameEnd.
  destruct (isSettled _ _) as [b| |]; cbn [bind];
    try (split; [discriminate|intros [H _]; discriminate H]).
  destruct b; cbn [andb];
    [|split; [discriminate|intros [H _]; discriminate H]].
  destruct (vlt _ _);
    [|split; [discriminate|intros [_ [H _]]; discriminate H]].
  destruct (shape (currentTetromino s)) as [|row0 rest]; cbn [hd existsb].
  - split; [discriminate|intros [_ [_ H]]; discriminate H].
  - split.
    + intros [= ->]. repeat split; reflexivity.
    + intros [_ [_ ->]]. reflexivity.
Qed.

Lemma overlapsTop_first_row (t : Tetromino) :
  vlt (y t) (Num 0) = true ->
  existsb is1 (hd [] (shape t)) = true ->
  overlapsTop t = true.
Proof.
  unfold overlapsTop, some.
  destruct (shape t) as [|row0 rest]; cbn [hd existsb someFrom];
    [discriminate|].
  intros Hy ->. destruct (y t) as [y0| |]; cbn in Hy; try discriminate.
  cbn [vadd vlt andb]. replace (y0 + 0) with y0 by lia. rewrite Hy.
  reflexivity.
Qed.

(** What [tick] does about the end of the game.  From a state that has not
    ended, [tick] sets the ended flag exactly when the piece is settled, its
    anchor row is negative and the first row of its shape has an occupied
    cell; it then changes nothing else, and the piece does overlap the top. *)
Theorem tick_ends_game_iff (s s' : State) (rng : float) :
  gameEnd s = false ->
  tick s rng = Ok s' ->
  (gameEnd s' = true <->
     isSettled (currentTetromino s) (grid s) = Ok true
     /\ vlt (y (currentTetromino s)) (Num 0) = true
     /\ existsb is1 (hd [] (shape (currentTetromino s))) = true)
  /\ (gameEnd s' = true ->
      s' = withGameEnd s true /\ overlapsTop (currentTetromino s) = true).
Proof.
  intros He Ht. rewrite <- isGameEnd_true_iff.
  assert (gameEnd s' = true <-> isGameEnd s = Ok true) as Hiff.
  { revert Ht. unfold tick.
    destruct (isGameEnd s) as [e| |]; cbn [bind]; try discriminate.
    destruct e.
    - intros [= <-]. split; reflexivity.
    - destruct (isSettled _ _) as [b| |]; cbn [bind]; try discriminate.
      destruct b.
      + destruct (updateGrid _ _) as [merged| |]; cbn [bind]; try discriminate.
        destruct (clearCompletedRows merged) as [cleared rows].
        destruct (getRandomTetromino rng) as [nxt| |]; cbn [bind]; try discriminate.
        intros [= <-]. cbn [gameEnd]. rewrite He. split; discriminate.
      + rewrite He, orb_false_r. destruct (gamePause s).
        * intros [= <-]. rewrite He. split; discriminate.
        * unfold moveTetromino.
          destruct (isCollision _ _ _ _) as [c| |]; cbn [bind]; try discriminate.
          destruct (c || _); intros [= <-]; cbn [gameEnd withGameRestart withCurrent];
            rewrite He; split; discriminate. }
  split; [exact Hiff|].
  intros H. apply Hiff in H. split.
  - unfold tick in Ht. rewrite H in Ht. cbn [bind] in Ht.
    injection Ht as <-. reflexivity.
  - apply isGameEnd_true_iff in H. destruct H as [_ [Hy Hrow]].
    apply overlapsTop_first_row; assumption.
Qed.

Lemma tick_ends_game_iff_witness :
  tick blockedT sampleSeed = Ok (withGameEnd blockedT true)
  /\ overlapsTop (currentTetromino blockedT) = true.
Proof.
  assert (tick blockedT sampleSeed = Ok (withGameEnd blockedT true)) as Ht
    by (vm_compute; reflexivity).
  split; [exact Ht|].
  apply (tick_ends_game_iff blockedT _ sampleSeed eq_refl Ht). reflexivity.
Defined.

(** ** Settling *)

Lemma settled_shape_nonempty (t : Tetromino) (g : Matrix) :
  isSettled t g = Ok true -> shape t <> [].
Proof.
  unfold isSettled, isCollision, isOutOfBounds. intros H E.
  rewrite E in H. discriminate H.
Qed.

(** ** Hold *)

Lemma resetPosition_kind (t : Tetromino) :
  isKind (key t) = true -> exists t', resetPosition t = Ok t'.
Proof.
  destruct t as [k o sh col px py]. unfold isKind. cbn. intros H.
  repeat (apply orb_prop in H; destruct H as [H|H]);
    try (apply String.eqb_eq in H; subst k; eexists; reflexivity).
  discriminate H.
Qed.

Lemma resetPosition_fields (t t' : Tetromino) :
  resetPosition t = Ok t' ->
  key t' = key t /\ colour t' = colour t
  /\ orientation t' = INITIAL_ORIENTATION /\ y t' = Num (-2)
  /\ prop TetrominoShapes (key t) = Some (shape t')
  /\ spawnX (Some (shape t')) = Ok (x t').
Proof.
  unfold resetPosition.
  destruct (prop TetrominoShapes (key t)) as [sh|] eqn:E; [|discriminate].
  destruct (spawnX (Some sh)) as [x0| |] eqn:Ex; cbn [bind]; try discriminate.
  intros [= <-]. cbn. repeat split; assumption || reflexivity.
Qed.

Lemma resetPosition_again (t t' : Tetromino) :
  resetPosition t = Ok t' -> resetPosition t' = Ok t'.
Proof.
  intros H. destruct (resetPosition_fields _ _ H) as (Hk & Hc & Ho & Hy & Hs & Hx).
  unfold resetPosition. rewrite Hk, Hs, Hx. cbn [bind].
  destruct t' as [k o sh col px py]. cbn in *. subst. reflexivity.
Qed.

(** C3, as the code has it.  When the pieces involved are of known kinds and
    the first hold's draw succeeds, two consecutive holds return, and the
    active piece they leave is [resetPosition] of the piece that was active
    before: the same kind and colour, back in spawn orientation, shape and
    position. *)
Theorem holdState_twice_resets (s : State) (r1 r2 : float) (drawn : Tetromino) :
  getRandomTetromino r1 = Ok drawn ->
  isKind (key (currentTetromino s)) = true ->
  isKind (key (nextTetromino s)) = true ->
  (forall h, holdTetromino s = Some h -> isKind (key h) = true) ->
  exists s1 s2,
    holdState s r1 = Ok s1
    /\ holdState s1 r2 = Ok s2
    /\ resetPosition (currentTetromino s) = Ok (currentTetromino s2)
    /\ key (currentTetromino s2) = key (currentTetromino s)
    /\ orientation (currentTetromino s2) = INITIAL_ORIENTATION
    /\ y (currentTetromino s2) = Num (-2).
Proof.
  intros Hdraw Hcur Hnxt Hheld.
  destruct (resetPosition_kind _ Hcur) as [c' Hc'].
  destruct (resetPosition_kind _ Hnxt) as [n' Hn'].
  pose proof (resetPosition_again _ _ Hc') as Hc''.
  destruct (resetPosition_fields _ _ Hc') as (Hk & _ & Ho & Hy & _).
  unfold holdState at 1.
  destruct (holdTetromino s) as [h|] eqn:Eh.
  - destruct (resetPosition_kind _ (Hheld h eq_refl)) as [h' Hh'].
    pose proof (resetPosition_again _ _ Hh') as Hh''.
    rewrite Hh', Hc'. cbn [bind].
    eexists. eexists. split; [reflexivity|].
    unfold holdState. cbn [holdTetromino currentTetromino].
    rewrite Hc'', Hh''. cbn [bind currentTetromino]. repeat split; assumption.
  - rewrite Hdraw, Hc'. cbn [bind].
    eexists. eexists. split; [reflexivity|].
    unfold holdState. cbn [holdTetromino currentTetromino].
    rewrite Hc'', Hn'. cbn [bind currentTetromino]. repeat split; assumption.
Qed.

Lemma holdState_twice_resets_witness :
  exists s1 s2,
    holdState fallingI sampleSeed = Ok s1
    /\ holdState s1 sampleSeed = Ok s2
    /\ resetPosition (currentTetromino fallingI) = Ok (currentTetromino s2)
    /\ key (currentTetromino s2) = key (currentTetromino fallingI)
    /\ orientation (currentTetromino s2) = INITIAL_ORIENTATION
    /\ y (currentTetromino s2) = Num (-2).
Proof.
  apply (holdState_twice_resets fallingI sampleSeed sampleSeed (spawned "O"));
    try (vm_compute; reflexivity).
  intros h H. discriminate H.
Defined.

(** C3, as stated, fails: after two holds the I piece that was three rows
    into the grid (anchor row 1) is back at its spawn row -2. *)
Lemma holdState_twice_not_involution :
  exists s1 s2,
    holdState fallingI sampleSeed = Ok s1
    /\ holdState s1 sampleSeed = Ok s2
    /\ y (currentTetromino fallingI) = Num 1
    /\ y (currentTetromino s2) = Num (-2)
    /\ currentTetromino s2 <> currentTetromino fallingI.
Proof.
  eexists. eexists.
  split; [vm_compute; reflexivity|].
  split; [vm_compute; reflexivity|].
  split; [reflexivity|]. split; [reflexivity|].
  intros H. apply (f_equal y) in H. vm_compute in H. discriminate H.
Qed.

(** ** Rotation of matrices *)

Lemma mapFrom_index_only {A B : Type} (g : Z -> B) (l : list A) (k : Z) :
  mapFrom (fun _ i => g i) k l =
  map (fun n => g (k + Z.of_nat n)) (seq 0 (List.length l)).
Proof.
  revert k. induction l as [|a l IH]; intros k; [reflexivity|].
  cbn [mapFrom List.length seq map]. f_equal.
  - f_equal. lia.
  - rewrite IH, <- seq_shift, map_map. apply map_ext. intros n.
    f_equal. lia.
Qed.

Lemma cellAt_nth (row : list value) (i : nat) :
  cellAt row (Num (Z.of_nat i)) = nth i row undefined.
Proof.
  unfold cellAt, lookup.
  destruct (Z.ltb_spec (Z.of_nat i) 0) as [H|_]; [lia|].
  rewrite Nat2Z.id.
  destruct (nth_error row i) as [v|] eqn:E.
  - symmetry. apply nth_error_nth. exact E.
  - symmetry. apply nth_overflow. apply nth_error_None. exact E.
Qed.

Lemma rotateMatrix_square (n : nat) (m : Matrix) :
  (0 < n)%nat -> square n m -> rotateMatrix m = Ok (quarterTurn n m).
Proof.
  intros Hn [Hlen Hrows]. unfold rotateMatrix, mapi, quarterTurn.
  destruct m as [|row0 rest]; [simpl in Hlen; lia|].
  assert (List.length row0 = n) as H0 by (inversion Hrows; assumption).
  rewrite (mapFrom_index_only
             (fun i => map (fun row => cellAt row (Num i)) (row0 :: rest))).
  rewrite H0, map_map. apply f_equal. apply map_ext. intros i.
  apply f_equal. apply map_ext. intros row.
  replace (0 + Z.of_nat i) with (Z.of_nat i) by lia. apply cellAt_nth.
Qed.

Lemma quarterTurn_square (n : nat) (m : Matrix) :
  square n m -> square n (quarterTurn n m).
Proof.
  intros [Hlen _]. unfold quarterTurn. split.
  - rewrite length_map, length_seq. reflexivity.
  - apply Forall_forall. intros row Hin.
    apply in_map_iff in Hin. destruct Hin as [i [<- _]].
    rewrite length_rev, length_map. exact Hlen.
Qed.

(** A quarter turn is clockwise: row [i], column [j] of the result is row
    [n - 1 - j], column [i] of the matrix. *)
Lemma quarterTurn_cell (n : nat) (m : Matrix) (i j : nat) :
  square n m -> (i < n)%nat -> (j < n)%nat ->
  cell (quarterTurn n m) i j = cell m (n - S j) i.
Proof.
  intros [Hlen _] Hi Hj. unfold cell, quarterTurn.
  set (f := fun i => rev (map (fun row => nth i row undefined) m)).
  rewrite (nth_indep (map f (seq 0 n)) [] (f 0%nat))
    by (rewrite length_map, length_seq; exact Hi).
  rewrite (map_nth f (seq 0 n) 0%nat i), seq_nth by exact Hi. cbn [Nat.add]. unfold f.
  rewrite rev_nth by (rewrite length_map; lia).
  rewrite length_map, Hlen.
  assert (undefined = (fun row : list value => nth i row undefined) []) as E
    by (destruct i; reflexivity).
  rewrite E at 1.
  rewrite (map_nth (fun row : list value => nth i row undefined) m [] (n - S j)).
  reflexivity.
Qed.

Lemma square_ext (n : nat) (a b : Matrix) :
  square n a -> square n b ->
  (forall i j, (i < n)%nat -> (j < n)%nat -> cell a i j = cell b i j) ->
  a = b.
Proof.
  intros [Ha Hra] [Hb Hrb] H.
  apply (nth_ext a b [] []); [congruence|].
  intros i Hi. rewrite Ha in Hi.
  assert (List.length (nth i a []) = n) as La.
  { rewrite Forall_forall in Hra. apply Hra, nth_In. lia. }
  assert (List.length (nth i b []) = n) as Lb.
  { rewrite Forall_forall in Hrb. apply Hrb, nth_In. lia. }
  apply (nth_ext _ _ undefined undefined); [congruence|].
  intros j Hj. rewrite La in Hj. apply (H i j Hi Hj).
Qed.

(** On a square matrix with at least one row, [rotateMatrix] is the quarter
    turn clockwise: row [i], column [j] of the result is row [n - 1 - j],
    column [i] of the matrix. *)
Theorem rotateMatrix_clockwise (n : nat) (m r : Matrix) (i j : nat) :
  (0 < n)%nat -> square n m -> rotateMatrix m = Ok r ->
  (i < n)%nat -> (j < n)%nat ->
  square n r /\ cell r i j = cell m (n - 1 - j) i.
Proof.
  intros Hn Hm Hr Hi Hj.
  rewrite (rotateMatrix_square n m Hn Hm) in Hr. injection Hr as <-.
  split; [apply quarterTurn_square, Hm|].
  rewrite (quarterTurn_cell n m i j Hm Hi Hj). f_equal. lia.
Qed.

Lemma rotateMatrix_clockwise_witness :
  cell (matrix [[0; 0; 0]; [1; 1; 1]; [0; 1; 0]]) 2 1 = Num 1.
Proof.
  pose proof (rotateMatrix_clockwise 3
                (matrix [[0; 1; 0]; [0; 1; 1]; [0; 1; 0]])
                (matrix [[0; 0; 0]; [1; 1; 1]; [0; 1; 0]]) 2 1) as H.
  destruct H as [_ H].
  - lia.
  - split; [reflexivity|]. repeat constructor.
  - reflexivity.
  - lia.
  - lia.
  - exact H.
Defined.

(** C10, as the code has it: on a square matrix with at least one row, four
    applications of [rotateMatrix] return and give the matrix back. *)
Theorem rotateMatrix_four_times (n : nat) (m : Matrix) :
  (0 < n)%nat -> square n m -> rotateMatrix4 m = Ok m.
Proof.
  intros Hn Hm. unfold rotateMatrix4.
  pose proof (quarterTurn_square n m Hm) as H1.
  pose proof (quarterTurn_square n _ H1) as H2.
  pose proof (quarterTurn_square n _ H2) as H3.
  pose proof (quarterTurn_square n _ H3) as H4.
  rewrite (rotateMatrix_square n m Hn Hm). cbn [bind].
  rewrite (rotateMatrix_square n _ Hn H1). cbn [bind].
  rewrite (rotateMatrix_square n _ Hn H2). cbn [bind].
  rewrite (rotateMatrix_square n _ Hn H3).
  f_equal. apply (square_ext n); [exact H4|exact Hm|].
  intros i j Hi Hj.
  rewrite (quarterTurn_cell n _ i j H3 Hi Hj).
  rewrite (quarterTurn_cell n _ (n - S j) i H2) by lia.
  rewrite (quarterTurn_cell n _ (n - S i) (n - S j) H1) by lia.
  rewrite (quarterTurn_cell n _ (n - S (n - S j)) (n - S i) Hm) by lia.
  replace (n - S (n - S i))%nat with i by lia.
  replace (n - S (n - S j))%nat with j by lia.
  reflexivity.
Qed.

Lemma rotateMatrix_four_times_witness :
  rotateMatrix4 (matrix [[0; 1; 0]; [1; 1; 1]; [0; 0; 0]])
  = Ok (matrix [[0; 1; 0]; [1; 1; 1]; [0; 0; 0]]).
Proof.
  apply (rotateMatrix_four_times 3).
  - lia.
  - split; [reflexivity|]. repeat constructor.
Defined.

(** C10, as stated, fails on the square matrix with no row: [matrix[0]] is
    [undefined] and [rotateMatrix] throws. *)
Lemma rotateMatrix_empty_throws :
  square 0 [] /\ rotateMatrix [] = TypeError /\ rotateMatrix4 [] = TypeError.
Proof.
  split; [split; [reflexivity|constructor]|]. split; reflexivity.
Qed.

(** ** Collision checks on a grid of full height *)

Lemma someFromM_total {A : Type} (f : A -> Z -> result bool) (l : list A) :
  (forall a i, exists b, f a i = Ok b) ->
  forall i, exists b, someFromM f i l = Ok b.
Proof.
  intros Hf. induction l as [|a l IH]; intros i; cbn [someFromM].
  - exists false. reflexivity.
  - destruct (Hf a i) as [b ->]. cbn [bind].
    destruct b; [exists true; reflexivity | apply IH].
Qed.

Lemma gridIs1_total (grid : Matrix) (newY newX : value) :
  fullHeight grid ->
  vge newY (Num GRID_HEIGHT) = false -> vge newY (Num 0) = true ->
  exists b, gridIs1 grid newY newX = Ok b.
Proof.
  unfold fullHeight, gridIs1, lookup, GRID_HEIGHT. intros Hg Hhi Hlo.
  destruct newY as [n| |]; cbn in Hhi, Hlo; try discriminate.
  apply Z.leb_gt in Hhi. apply Z.leb_le in Hlo.
  destruct (Z.ltb_spec n 0) as [H|_]; [lia|].
  destruct (nth_error grid (Z.to_nat n)) as [row|] eqn:E.
  - eexists; reflexivity.
  - apply nth_error_None in E. lia.
Qed.

Lemma isCollision_total (x y : value) (shape grid : Matrix) :
  fullHeight grid -> exists b, isCollision x y shape grid = Ok b.
Proof.
  intros Hg. unfold isCollision, someM.
  apply someFromM_total. intros row yBlock.
  apply someFromM_total. intros c xBlock.
  destruct (is1 c); [|eexists; reflexivity].
  cbn zeta.
  destruct (vge (vadd y (Num yBlock)) (Num GRID_HEIGHT)) eqn:Hhi;
    [eexists; reflexivity|].
  cbn [orb].
  destruct (vlt (vadd x (Num xBlock)) (Num 0)
            || vge (vadd x (Num xBlock)) (Num GRID_WIDTH));
    [eexists; reflexivity|].
  destruct (vge (vadd y (Num yBlock)) (Num 0)) eqn:Hlo;
    [|eexists; reflexivity].
  apply gridIs1_total; assumption.
Qed.

Lemma isSettled_total (t : Tetromino) (grid : Matrix) :
  fullHeight grid -> exists b, isSettled t grid = Ok b.
Proof.
  intros Hg. unfold isSettled.
  destruct (isCollision_total (x t) (vadd (y t) (Num 1)) (shape t) grid Hg)
    as [c ->].
  cbn [bind]. destruct c; eexists; reflexivity.
Qed.

Lemma isLegal_total (t : Tetromino) (grid : Matrix) :
  fullHeight grid -> isLegal t grid = Ok (isLegalB t grid).
Proof.
  intros Hg. unfold isLegalB, isLegal.
  destruct (isCollision_total (x t) (y t) (shape t) grid Hg) as [c ->].
  cbn [bind]. destruct c; reflexivity.
Qed.

(** ** Hard drop *)

Lemma someFrom_at {A : Type} (f : A -> Z -> bool) (l : list A) (n : nat) (a : A) :
  nth_error l n = Some a ->
  forall i, f a (i + Z.of_nat n) = true -> someFrom f i l = true.
Proof.
  revert n. induction l as [|b l IH]; intros n Hn i Hf.
  - destruct n; discriminate Hn.
  - cbn [someFrom]. destruct n as [|n].
    + injection Hn as ->. replace (i + Z.of_nat 0) with i in Hf by lia.
      rewrite Hf. reflexivity.
    + destruct (f b i); [reflexivity|].
      apply (IH n Hn). rewrite <- Hf. f_equal. lia.
Qed.

Lemma existsb_at {A : Type} (p : A -> bool) (l : list A) :
  existsb p l = true -> exists n a, nth_error l n = Some a /\ p a = true.
Proof.
  intros H. apply existsb_exists in H. destruct H as [a [Hin Hp]].
  apply In_nth_error in Hin. destruct Hin as [n Hn].
  exists n, a. split; assumption.
Qed.

(** A piece with an occupied cell whose anchor row is at or below the floor
    is out of bounds. *)
Lemma isOutOfBounds_below (x : value) (y0 : Z) (shape : Matrix) :
  hasCell shape = true -> GRID_HEIGHT <= y0 ->
  isOutOfBounds x (Num y0) shape = true.
Proof.
  unfold hasCell, isOutOfBounds, some, GRID_HEIGHT. intros Hc Hy.
  destruct (existsb_at _ _ Hc) as [r [row [Hrow Hin]]].
  destruct (existsb_at _ _ Hin) as [c [v [Hv H1]]].
  apply (someFrom_at _ _ r row Hrow).
  apply (someFrom_at _ _ c v Hv).
  rewrite H1. cbn [vadd vge].
  destruct (Z.leb_spec 20 (y0 + (0 + Z.of_nat r))) as [_|H]; [|lia].
  apply orb_true_r.
Qed.

Lemma isSettled_at_floor (t : Tetromino) (y0 : Z) (grid : Matrix) :
  fullHeight grid -> hasCell (shape t) = true -> y t = Num y0 ->
  GRID_HEIGHT - 1 <= y0 ->
  isSettled t grid = Ok true.
Proof.
  intros Hg Hc Hy Hlow. unfold isSettled. rewrite Hy. cbn [vadd].
  destruct (isCollision_total (x t) (Num (y0 + 1)) (shape t) grid Hg) as [c ->].
  cbn [bind]. destruct c; [reflexivity|].
  rewrite isOutOfBounds_below; [reflexivity|assumption|lia].
Qed.

(** A piece that is not settled moves down by one row. *)
Lemma moveTetromino_down (s : State) (x0 y0 : Z) :
  x (currentTetromino s) = Num x0 -> y (currentTetromino s) = Num y0 ->
  isSettled (currentTetromino s) (grid s) = Ok false ->
  moveTetromino s 0 1 =
    Ok (withCurrent s (withXY (currentTetromino s) (Num x0) (Num (y0 + 1)))).
Proof.
  intros Hx Hy. unfold isSettled, moveTetromino.
  cbn [x y shape withXY]. rewrite Hx, Hy. cbn [vadd].
  replace (x0 + 0) with x0 by lia.
  destruct (isCollision (Num x0) (Num (y0 + 1)) (shape (currentTetromino s)) (grid s))
    as [c| |]; cbn [bind]; try discriminate.
  destruct c; [discriminate|]. intros [= ->]. reflexivity.
Qed.

Lemma withCurrent_same (s : State) (x0 y0 : Z) :
  x (currentTetromino s) = Num x0 -> y (currentTetromino s) = Num y0 ->
  withCurrent s (withXY (currentTetromino s) (Num x0) (Num (y0 + 0))) = s.
Proof.
  destruct s as [e p r g [k o sh col px py] n h l sc hs]. cbn.
  intros -> ->. replace (y0 + 0) with y0 by lia. reflexivity.
Qed.

Lemma dropOneStepRecursive_descends (n : nat) :
  forall (s : State) (x0 y0 : Z),
    fullHeight (grid s) ->
    hasCell (shape (currentTetromino s)) = true ->
    x (currentTetromino s) = Num x0 -> y (currentTetromino s) = Num y0 ->
    GRID_HEIGHT - 1 - y0 <= Z.of_nat n ->
    exists k : nat,
      (k <= n)%nat
      /\ isSettled (withXY (currentTetromino s) (Num x0) (Num (y0 + Z.of_nat k)))
                   (grid s) = Ok true
      /\ forall fuel, (k < fuel)%nat ->
           dropOneStepRecursive fuel s =
             Ok (withCurrent s (withXY (currentTetromino s) (Num x0)
                                       (Num (y0 + Z.of_nat k)))).
Proof.
  induction n as [|n IH]; intros s x0 y0 Hg Hc Hx Hy Hn.
  - assert (isSettled (currentTetromino s) (grid s) = Ok true) as Hs
      by (apply (isSettled_at_floor _ y0); auto; lia).
    exists 0%nat. cbn [Z.of_nat].
    pose proof (withCurrent_same s x0 y0 Hx Hy) as Hsame.
    pose proof (f_equal currentTetromino Hsame) as Hcur.
    cbn [currentTetromino withCurrent] in Hcur.
    rewrite Hsame, Hcur. split; [lia|]. split; [exact Hs|].
    intros [|fuel] Hf; [lia|]. cbn [dropOneStepRecursive].
    rewrite Hs. reflexivity.
  - destruct (isSettled_total (currentTetromino s) (grid s) Hg) as [b Hb].
    destruct b.
    + exists 0%nat. cbn [Z.of_nat].
      pose proof (withCurrent_same s x0 y0 Hx Hy) as Hsame.
      pose proof (f_equal currentTetromino Hsame) as Hcur.
      cbn [currentTetromino withCurrent] in Hcur.
      rewrite Hsame, Hcur. split; [lia|]. split; [exact Hb|].
      intros [|fuel] Hf; [lia|]. cbn [dropOneStepRecursive].
      rewrite Hb. reflexivity.
    + pose proof (moveTetromino_down s x0 y0 Hx Hy Hb) as Hm.
      set (s1 := withCurrent s (withXY (currentTetromino s) (Num x0) (Num (y0 + 1)))) in *.
      destruct (IH s1 x0 (y0 + 1)) as [k [Hk [Hset Hrun]]];
        try reflexivity; try assumption; try lia.
      exists (S k). split; [lia|].
      replace (y0 + Z.of_nat (S k)) with (y0 + 1 + Z.of_nat k) by lia.
      split; [exact Hset|].
      intros [|fuel] Hf; [lia|]. cbn [dropOneStepRecursive].
      rewrite Hb. cbn [bind]. rewrite Hm. cbn [bind].
      rewrite Hrun by lia. reflexivity.
Qed.

(** C8, as the code has it.  On a grid of full height, for a piece at exact
    integer coordinates whose shape has an occupied cell and whose anchor
    row is no more than a grid height above the top, [dropTetromino]
    returns: it makes [k] translations down, with [k] at most the distance
    from the anchor row to the floor (at most [GRID_HEIGHT] from anchor row
    -1 or below, and less than twice [GRID_HEIGHT] in all), needs no more
    than [k + 1] calls, changes nothing but the anchor row, and leaves the
    piece settled. *)
Theorem dropTetromino_settles (s : State) (x0 y0 : Z) :
  fullHeight (grid s) ->
  hasCell (shape (currentTetromino s)) = true ->
  x (currentTetromino s) = Num x0 -> y (currentTetromino s) = Num y0 ->
  exactInt x0 -> - GRID_HEIGHT <= y0 <= EXACT_RANGE ->
  exists (k : nat) (s' : State),
    Z.of_nat k <= Z.max 0 (GRID_HEIGHT - 1 - y0)
    /\ Z.of_nat k < 2 * GRID_HEIGHT
    /\ (-1 <= y0 -> Z.of_nat k <= GRID_HEIGHT)
    /\ s' = withCurrent s (withXY (currentTetromino s) (Num x0)
                                  (Num (y0 + Z.of_nat k)))
    /\ (forall fuel, (k < fuel)%nat -> dropTetromino fuel s = Ok s')
    /\ isSettled (currentTetromino s') (grid s') = Ok true.
Proof.
  intros Hg Hc Hx Hy _ Hrange.
  destruct (dropOneStepRecursive_descends
              (Z.to_nat (Z.max 0 (GRID_HEIGHT - 1 - y0))) s x0 y0)
    as [k [Hk [Hset Hrun]]]; try assumption; try lia.
  exists k. eexists.
  split; [lia|]. split; [unfold GRID_HEIGHT in *; lia|].
  split; [unfold GRID_HEIGHT in *; lia|]. split; [reflexivity|].
  split; [exact Hrun|]. exact Hset.
Qed.

Lemma dropTetromino_settles_witness :
  exists (k : nat) (s' : State),
    Z.of_nat k <= 18
    /\ s' = withCurrent fallingI
              (withXY (currentTetromino fallingI) (Num 3) (Num (1 + Z.of_nat k)))
    /\ (forall fuel, (k < fuel)%nat -> dropTetromino fuel fallingI = Ok s')
    /\ isSettled (currentTetromino s') (grid s') = Ok true.
Proof.
  destruct (dropTetromino_settles fallingI 3 1)
    as (k & s' & Hk & _ & _ & Hs' & Hrun & Hset);
    try reflexivity;
    try (unfold exactInt, EXACT_RANGE, GRID_HEIGHT; lia).
  exists k, s'. split; [exact Hk|]. split; [exact Hs'|].
  split; [exact Hrun|]. exact Hset.
Defined.

(** ** Rotation with wall kicks *)

Lemma findM_find {A : Type} (f : A -> result bool) (g : A -> bool) (l : list A) :
  (forall a, f a = Ok (g a)) -> findM f l = Ok (find g l).
Proof.
  intros H. induction l as [|a l IH]; [reflexivity|].
  cbn [findM find]. rewrite H. cbn [bind].
  destruct (g a); [reflexivity|exact IH].
Qed.

Lemma rotateTetromino_unfold (s : State) (rsh : Matrix) :
  rotateMatrix (shape (currentTetromino s)) = Ok rsh ->
  rotateTetromino s =
    (legal <- isLegal (rotated (currentTetromino s) rsh) (grid s) ;;
     if legal then Ok (withCurrent s (rotated (currentTetromino s) rsh))
     else
       kick <- attemptWallKick (currentTetromino s)
                               (rotated (currentTetromino s) rsh) (grid s) ;;
       match kick with
       | Some t => Ok (withCurrent s t)
       | None => Ok s
       end).
Proof.
  intros Hr. unfold rotateTetromino, isLegal. rewrite Hr. cbn [bind].
  fold (rotated (currentTetromino s) rsh).
  destruct (isCollision (x (rotated (currentTetromino s) rsh))
                        (y (rotated (currentTetromino s) rsh))
                        (shape (rotated (currentTetromino s) rsh)) (grid s))
    as [c| |]; cbn [bind]; try reflexivity.
  destruct c; cbn [negb andb bind]; [reflexivity|].
  destruct (isOutOfBounds (x (rotated (currentTetromino s) rsh))
                          (y (rotated (currentTetromino s) rsh))
                          (shape (rotated (currentTetromino s) rsh)));
    reflexivity.
Qed.

Lemma attemptWallKick_find (cur r : Tetromino) (grid : Matrix) (tests : list (list Z)) :
  fullHeight grid ->
  kickTests (key cur) (orientation cur) = Some tests ->
  attemptWallKick cur r grid =
    Ok (option_map (kicked r)
                   (find (fun test => isLegalB (kicked r test) grid) tests)).
Proof.
  intros Hg. unfold kickTests, attemptWallKick.
  destruct (prop WallKickData (key cur)) as [table|]; [|discriminate].
  intros ->.
  rewrite (findM_find _ (fun test => isLegalB (kicked r test) grid)).
  - cbn [bind]. destruct (find _ tests); reflexivity.
  - intros test. apply (isLegal_total (kicked r test) grid Hg).
Qed.

(** C5. On a grid of full height, for a piece with a non-empty shape and an
    orientation among 0..3: the rotated piece has the orientation advanced by
    1 modulo 4 and the shape turned by [rotateMatrix], at the same anchor.
    The placement test returns on such a grid.  If the placement is legal,
    [rotateTetromino] returns it, whatever the wall-kick table holds.  If it is not, and the table has the entry keyed
    by the piece's kind and its orientation before the rotation, the
    offsets of the entry are tried in order and the first that gives a legal
    placement is applied; if none does, the state is returned unchanged. *)
Theorem rotateTetromino_spec (s : State) :
  fullHeight (grid s) ->
  shape (currentTetromino s) <> [] ->
  0 <= orientation (currentTetromino s) < 4 ->
  exists rsh,
    rotateMatrix (shape (currentTetromino s)) = Ok rsh
    /\ let r := rotated (currentTetromino s) rsh in
       orientation r = (orientation (currentTetromino s) + 1) mod 4
       /\ shape r = rsh
       /\ x r = x (currentTetromino s) /\ y r = y (currentTetromino s)
       /\ isLegal r (grid s) = Ok (isLegalB r (grid s))
       /\ (isLegal r (grid s) = Ok true ->
           rotateTetromino s = Ok (withCurrent s r))
       /\ (isLegal r (grid s) = Ok false ->
           forall tests,
             kickTests (key (currentTetromino s))
                       (orientation (currentTetromino s)) = Some tests ->
             rotateTetromino s =
               Ok (match find (fun test => isLegalB (kicked r test) (grid s)) tests with
                   | Some test => withCurrent s (kicked r test)
                   | None => s
                   end)).
Proof.
  intros Hg Hne Ho.
  assert (exists rsh, rotateMatrix (shape (currentTetromino s)) = Ok rsh)
    as [rsh Hr].
  { unfold rotateMatrix. destruct (shape (currentTetromino s)); [congruence|].
    eexists; reflexivity. }
  exists rsh. split; [exact Hr|]. cbn zeta.
  split; [cbn [orientation rotated]; apply Z.rem_mod_nonneg; lia|].
  split; [reflexivity|]. split; [reflexivity|]. split; [reflexivity|].
  split; [apply isLegal_total, Hg|].
  rewrite (rotateTetromino_unfold s rsh Hr). split.
  - intros ->. reflexivity.
  - intros -> tests Ht. cbn [bind].
    rewrite (attemptWallKick_find _ _ _ tests Hg Ht). cbn [bind].
    destruct (find _ tests); reflexivity.
Qed.

Lemma rotateTetromino_spec_witness :
  rotateTetromino wallT =
    Ok (withCurrent wallT
          (mkTetromino "T" 2 (matrix [[0; 0; 0]; [1; 1; 1]; [0; 1; 0]]) "magenta"
                       (Num 0) (Num 5))).
Proof.
  destruct (rotateTetromino_spec wallT) as [rsh [Hr [_ [_ [_ [_ [_ [_ Hkick]]]]]]]].
  - reflexivity.
  - discriminate.
  - cbn. lia.
  - vm_compute in Hr. injection Hr as <-.
    rewrite (Hkick ltac:(vm_compute; reflexivity)
                   [[1; 0]; [1; 1]; [0; -2]; [1; -2]] eq_refl).
    vm_compute. reflexivity.
Defined.

(** ** Scores along a game, and restart *)

Lemma moveTetromino_scores (s s' : State) (dx dy : Z) :
  moveTetromino s dx dy = Ok s' ->
  score s' = score s /\ highScore s' = highScore s.
Proof.
  unfold moveTetromino. case_bind.
  destruct (_ || _); intros [= <-]; split; reflexivity.
Qed.

Lemma rotateTetromino_scores (s s' : State) :
  rotateTetromino s = Ok s' ->
  score s' = score s /\ highScore s' = highScore s.
Proof.
  unfold rotateTetromino. do 2 case_bind.
  destruct (negb _ && _); [intros [= <-]; split; reflexivity|].
  case_bind.
  match goal with |- context [match ?k with Some _ => _ | None => _ end] =>
    destruct k end; intros [= <-]; split; reflexivity.
Qed.

Lemma updateState_scores (s s' : State) (code : string) :
  updateState s code = Ok s' ->
  score s' = score s /\ highScore s' = highScore s.
Proof.
  unfold updateState.
  repeat match goal with
         | |- context [if ?b then _ else _] => destruct b
         end;
    try apply moveTetromino_scores; try apply rotateTetromino_scores.
  intros [= <-]. split; reflexivity.
Qed.

Lemma dropOneStepRecursive_scores (fuel : nat) :
  forall s s', dropOneStepRecursive fuel s = Ok s' ->
               score s' = score s /\ highScore s' = highScore s.
Proof.
  induction fuel as [|fuel IH]; intros s s'; cbn [dropOneStepRecursive];
    [discriminate|].
  case_bind.
  match goal with |- context [if ?b then _ else _] => destruct b end;
    [intros [= <-]; split; reflexivity|].
  case_bind.
  match goal with H : moveTetromino _ _ _ = Ok _ |- _ =>
    apply moveTetromino_scores in H; destruct H as [<- <-] end.
  apply IH.
Qed.

Lemma holdState_scores (s s' : State) (rng : float) :
  holdState s rng = Ok s' ->
  score s' = score s /\ highScore s' = highScore s.
Proof.
  unfold holdState.
  destruct (holdTetromino s) as [h|]; do 2 case_bind;
    intros [= <-]; split; reflexivity.
Qed.

Lemma tick_scoresOrdered (s s' : State) (rng : float) :
  scoresOrdered s -> tick s rng = Ok s' -> scoresOrdered s'.
Proof.
  unfold scoresOrdered, tick. intros Hs.
  destruct (isGameEnd s) as [e| |]; cbn [bind]; try discriminate.
  destruct e; [intros [= <-]; exact Hs|].
  destruct (isSettled _ _) as [b| |]; cbn [bind]; try discriminate.
  destruct b.
  - destruct (updateGrid _ _) as [merged| |]; cbn [bind]; try discriminate.
    rewrite (clearCompletedRows_rows merged).
    destruct (getRandomTetromino rng) as [nxt| |]; cbn [bind]; try discriminate.
    intros [= <-]. cbn [score highScore].
    destruct (Z.ltb_spec (highScore s)
                (score s + Z.of_nat (List.length (filter isFull merged)) * 100));
      lia.
  - destruct (gamePause s || gameEnd s); [intros [= <-]; exact Hs|].
    destruct (moveTetromino s 0 1) as [m| |] eqn:Hm; cbn [bind]; try discriminate.
    apply moveTetromino_scores in Hm. destruct Hm as [H1 H2].
    intros [= <-]. cbn [score highScore withGameRestart]. lia.
Qed.

Lemma INITIAL_STATE_scores (seed : float) (s0 : State) :
  INITIAL_STATE seed = Ok s0 ->
  score s0 = 0 /\ highScore s0 = 0 /\ gameRestart s0 = false.
Proof.
  unfold INITIAL_STATE.
  destruct (getRandomTetromino seed) as [a| |]; cbn [bind]; try discriminate.
  destruct (getRandomTetromino _) as [b| |]; cbn [bind]; try discriminate.
  intros [= <-]. repeat split; reflexivity.
Qed.

Lemma handleInput_scoresOrdered (seed : float) (fuel : nat) (s s' : State) (i : Input) :
  scoresOrdered s -> handleInput seed fuel s i = Ok s' -> scoresOrdered s'.
Proof.
  intros Hs. unfold handleInput.
  destruct (isMovement s i).
  { destruct i as [rng|code|target|rng code]; try (intros [= <-]; exact Hs).
    destruct (updateState s code) as [u| |] eqn:Hu; cbn [bind]; try discriminate.
    apply updateState_scores in Hu. destruct Hu as [H1 H2].
    intros [= <-]. unfold scoresOrdered in *.
    cbn [score highScore withGameRestart]. lia. }
  destruct (isPause i); [intros [= <-]; exact Hs|].
  destruct (isRestart i).
  { destruct (INITIAL_STATE seed) as [init| |] eqn:Hi; cbn [bind]; try discriminate.
    apply INITIAL_STATE_scores in Hi. destruct Hi as [H1 [H2 _]].
    intros [= <-]. unfold scoresOrdered in *.
    cbn [score highScore withGameRestart withHighScore]. lia. }
  destruct (isHardDrop s i).
  { destruct i as [rng|code|target|rng code]; try (intros [= <-]; exact Hs).
    unfold hardDrop, dropTetromino.
    destruct (dropOneStepRecursive fuel s) as [d| |] eqn:Hd; cbn [bind];
      try discriminate.
    apply dropOneStepRecursive_scores in Hd. destruct Hd as [H1 H2].
    apply tick_scoresOrdered. unfold scoresOrdered in *. lia. }
  destruct (isHold s i).
  { destruct i as [rng|code|target|rng code]; try (intros [= <-]; exact Hs).
    destruct (holdState s rng) as [h| |] eqn:Hh; cbn [bind]; try discriminate.
    apply holdState_scores in Hh. destruct Hh as [H1 H2].
    intros [= <-]. unfold scoresOrdered in *.
    cbn [score highScore withGameRestart]. lia. }
  destruct (gameEnd s || gamePause s); [intros [= <-]; exact Hs|].
  apply tick_scoresOrdered, Hs.
Qed.

Lemma reachable_scoresOrdered (seed : float) (s : State) :
  reachable seed s -> scoresOrdered s.
Proof.
  induction 1 as [s0 H0|s s' fuel i _ IH Hstep].
  - apply INITIAL_STATE_scores in H0. destruct H0 as [H1 [H2 _]].
    unfold scoresOrdered. lia.
  - exact (handleInput_scoresOrdered seed fuel s s' i IH Hstep).
Qed.

(** C9, as the code has it.  From every reachable state, a click on the
    restart button gives the initial state with the just-restarted flag set
    and with the high score carried over; in a reachable state the score
    never exceeds the high score, so the carried value is the larger of the
    two. *)
Theorem restart_keeps_high_score (seed : float) (s0 s : State) (fuel : nat) :
  INITIAL_STATE seed = Ok s0 ->
  reachable seed s ->
  score s <= highScore s
  /\ handleInput seed fuel s restartClick =
       Ok (mkState (gameEnd s0) (gamePause s0) true (grid s0)
                   (currentTetromino s0) (nextTetromino s0) (holdTetromino s0)
                   (level s0) (score s0)
                   (Z.max (highScore s) (score s))).
Proof.
  intros H0 Hr.
  destruct (reachable_scoresOrdered seed s Hr) as [_ Hle].
  split; [exact Hle|].
  unfold handleInput, restartClick. cbn [isMovement isPause isRestart].
  rewrite H0. cbn [bind]. unfold withHighScore, withGameRestart.
  cbn [gameEnd gamePause gameRestart grid currentTetromino nextTetromino
       holdTetromino level score highScore].
  rewrite Z.max_l by exact Hle. reflexivity.
Qed.

Lemma restart_keeps_high_score_witness :
  exists s0 s1,
    INITIAL_STATE sampleSeed = Ok s0
    /\ handleInput sampleSeed 30 s0 (InPair sampleSeed "Space") = Ok s1
    /\ score s1 <= highScore s1
    /\ handleInput sampleSeed 0 s1 restartClick =
         Ok (mkState (gameEnd s0) (gamePause s0) true (grid s0)
                     (currentTetromino s0) (nextTetromino s0) (holdTetromino s0)
                     (level s0) (score s0)
                     (Z.max (highScore s1) (score s1))).
Proof.
  eexists. eexists.
  split; [vm_compute; reflexivity|].
  split; [vm_compute; reflexivity|].
  apply (restart_keeps_high_score sampleSeed _ _ 0%nat).
  - vm_compute. reflexivity.
  - eapply (reach_step sampleSeed _ _ 30%nat (InPair sampleSeed "Space")).
    + apply reach_init. vm_compute. reflexivity.
    + vm_compute. reflexivity.
Defined.

(** C9, as stated, fails: restarting from the initial state itself gives a
    state whose just-restarted flag is set, which the initial state with any
    high score is not. *)
Lemma restart_sets_flag :
  exists s0 r,
    INITIAL_STATE sampleSeed = Ok s0
    /\ reachable sampleSeed s0
    /\ handleInput sampleSeed 0 s0 restartClick = Ok r
    /\ gameRestart s0 = false
    /\ gameRestart r = true
    /\ r <> withHighScore s0 (Z.max (highScore s0) (score s0)).
Proof.
  eexists. eexists.
  split; [vm_compute; reflexivity|].
  split; [apply reach_init; vm_compute; reflexivity|].
  split; [vm_compute; reflexivity|].
  split; [reflexivity|]. split; [reflexivity|].
  intros H. apply (f_equal gameRestart) in H. discriminate H.
Qed.

(** * The invariant of the game *)

(** ** Arrays, continued *)

Lemma length_mapFrom {A B : Type} (f : A -> Z -> B) (l : list A) (i : Z) :
  List.length (mapFrom f i l) = List.length l.
Proof.
  revert i. induction l as [|a l IH]; intros i; cbn; [reflexivity|].
  rewrite IH. reflexivity.
Qed.

Lemma Forall_mapFrom {A B : Type} (P : B -> Prop) (f : A -> Z -> B) (l : list A) :
  forall i,
    (forall n a, nth_error l n = Some a -> P (f a (i + Z.of_nat n))) ->
    Forall P (mapFrom f i l).
Proof.
  induction l as [|a l IH]; intros i H; cbn [mapFrom]; constructor.
  - specialize (H 0%nat a eq_refl). replace (i + Z.of_nat 0) with i in H by lia.
    exact H.
  - apply IH. intros n b Hn. specialize (H (S n) b Hn).
    replace (i + 1 + Z.of_nat n) with (i + Z.of_nat (S n)) by lia. exact H.
Qed.

Lemma someFromM_false_at {A : Type} (f : A -> Z -> result bool) (l : list A) :
  forall i, someFromM f i l = Ok false ->
            forall n a, nth_error l n = Some a -> f a (i + Z.of_nat n) = Ok false.
Proof.
  induction l as [|b l IH]; intros i H n a Hn.
  - destruct n; discriminate Hn.
  - cbn [someFromM] in H.
    destruct (f b i) as [c| |] eqn:E; cbn [bind] in H; try discriminate H.
    destruct c; [discriminate H|].
    destruct n as [|n].
    + injection Hn as <-. replace (i + Z.of_nat 0) with i by lia. exact E.
    + replace (i + Z.of_nat (S n)) with (i + 1 + Z.of_nat n) by lia.
      apply (IH (i + 1) H n a Hn).
Qed.

Lemma someFrom_false_at {A : Type} (f : A -> Z -> bool) (l : list A) :
  forall i, someFrom f i l = false ->
            forall n a, nth_error l n = Some a -> f a (i + Z.of_nat n) = false.
Proof.
  induction l as [|b l IH]; intros i H n a Hn.
  - destruct n; discriminate Hn.
  - cbn [someFrom] in H. destruct (f b i) eqn:E; [discriminate H|].
    destruct n as [|n].
    + injection Hn as <-. replace (i + Z.of_nat 0) with i by lia. exact E.
    + replace (i + Z.of_nat (S n)) with (i + 1 + Z.of_nat n) by lia.
      apply (IH (i + 1) H n a Hn).
Qed.

Lemma lookup_nat {A : Type} (l : list A) (n : nat) :
  lookup l (Z.of_nat n) = nth_error l n.
Proof.
  unfold lookup. destruct (Z.ltb_spec (Z.of_nat n) 0); [lia|].
  rewrite Nat2Z.id. reflexivity.
Qed.

(** ** Pieces *)

Ltac piece_cases t H :=
  let k := fresh "k" in
  let o := fresh "o" in
  let sh := fresh "sh" in
  let col := fresh "col" in
  let px := fresh "px" in
  let py := fresh "py" in
  let Hk := fresh "Hk" in
  let Ho := fresh "Ho" in
  let Hs := fresh "Hs" in
  let Hc := fresh "Hc" in
  let x0 := fresh "x0" in
  let y0 := fresh "y0" in
  let Hx := fresh "Hx" in
  let Hy := fresh "Hy" in
  let Ho' := fresh "Ho'" in
  destruct t as [k o sh col px py];
  destruct H as (Hk & Ho & Hs & Hc & (x0 & y0 & Hx & Hy));
  cbn [key orientation shape colour x y] in *;
  subst px py;
  unfold isKind in Hk; cbn in Hk;
  repeat (apply orb_prop in Hk; destruct Hk as [Hk|Hk]);
  try discriminate Hk;
  apply String.eqb_eq in Hk; subst k;
  assert (o = 0 \/ o = 1 \/ o = 2 \/ o = 3) as Ho' by lia;
  destruct Ho' as [->|[->|[->| ->]]];
  vm_compute in Hs; injection Hs as <-;
  vm_compute in Hc; injection Hc as <-;
  clear Ho.

Ltac kind_cases k Hk :=
  unfold isKind in Hk; cbn in Hk;
  repeat (apply orb_prop in Hk; destruct Hk as [Hk|Hk]);
  try discriminate Hk;
  apply String.eqb_eq in Hk; subst k.

Lemma validPiece_shapeOk (t : Tetromino) :
  validPiece t -> shapeOkB (shape t) = true.
Proof.
  intros H. piece_cases t H; reflexivity.
Qed.

Lemma validPiece_rotated (t : Tetromino) :
  validPiece t ->
  exists rsh, rotateMatrix (shape t) = Ok rsh /\ validPiece (rotated t rsh).
Proof.
  intros H. piece_cases t H; eexists; (split; [reflexivity|]);
    (split; [reflexivity|]); (split; [cbn; lia|]);
    (split; [reflexivity|]); (split; [reflexivity|]);
    eexists; eexists; split; reflexivity.
Qed.

Lemma validPiece_O_turn (t : Tetromino) :
  validPiece t -> key t = "O" -> rotateMatrix (shape t) = Ok (shape t).
Proof.
  intros H. piece_cases t H; cbn [key]; intros E; try discriminate E;
    reflexivity.
Qed.

Lemma validPiece_kickTests (t : Tetromino) :
  validPiece t -> key t <> "O" ->
  exists tests,
    kickTests (key t) (orientation t) = Some tests
    /\ Forall (fun test => exists dx dy, test = [dx; dy]) tests.
Proof.
  intros H. piece_cases t H; cbn [key orientation]; intros E;
    try (exfalso; apply E; reflexivity);
    eexists; (split; [reflexivity|]);
    repeat constructor; eexists; eexists; reflexivity.
Qed.

Lemma validPiece_reset (t : Tetromino) :
  validPiece t -> resetPosition t = Ok (spawned (key t)).
Proof.
  intros H. piece_cases t H; reflexivity.
Qed.

Lemma validPiece_withXY (t : Tetromino) (x1 y1 : Z) :
  validPiece t -> validPiece (withXY t (Num x1) (Num y1)).
Proof.
  intros (Hk & Ho & Hs & Hc & _). unfold validPiece. cbn.
  repeat split; try assumption; try lia.
  exists x1, y1. split; reflexivity.
Qed.

Lemma spawned_valid (k : string) :
  isKind k = true -> validPiece (spawned k).
Proof.
  intros Hk. kind_cases k Hk;
    (split; [reflexivity|]); (split; [cbn; unfold INITIAL_ORIENTATION; lia|]);
    (split; [reflexivity|]); (split; [reflexivity|]);
    eexists; eexists; split; reflexivity.
Qed.

Lemma spawned_legal (k : string) (g : Matrix) :
  isKind k = true -> isLegal (spawned k) g = Ok true.
Proof.
  intros Hk. kind_cases k Hk; reflexivity.
Qed.

Lemma spawned_key (k : string) : key (spawned k) = k.
Proof. reflexivity. Qed.

Lemma getRandomTetromino_fresh (rng : float) (t : Tetromino) :
  getRandomTetromino rng = Ok t -> freshPiece t.
Proof.
  unfold getRandomTetromino, freshPiece.
  destruct (floor _) as [i|]; [|discriminate].
  unfold lookup. destruct (i <? 0); [discriminate|].
  cbn [keys TetrominoShapes map fst].
  destruct (Z.to_nat i) as [|[|[|[|[|[|[|n]]]]]]]; cbn;
    try (destruct n; discriminate);
    match goal with
    | |- Ok (mkTetromino ?k _ _ _ _ _) = _ -> _ =>
        intros [= <-]; exists k; split; reflexivity
    end.
Qed.

(** ** Merging a legally placed piece *)

Lemma shapeOkB_cell (sh : Matrix) :
  shapeOkB sh = true ->
  forall r row, nth_error sh r = Some row ->
    List.length row = List.length sh
    /\ forall c v, nth_error row c = Some v -> isBinary v = true.
Proof.
  unfold shapeOkB. intros H r row Hr.
  apply andb_prop in H. destruct H as [_ H].
  rewrite forallb_forall in H.
  specialize (H row (nth_error_In _ _ Hr)).
  apply andb_prop in H. destruct H as [Hl Hb].
  apply Nat.eqb_eq in Hl. split; [exact Hl|].
  intros c v Hc. rewrite forallb_forall in Hb.
  apply Hb, (nth_error_In _ _ Hc).
Qed.

Lemma isCollision_false_cell (x0 y0 : Z) (sh g : Matrix) :
  isCollision (Num x0) (Num y0) sh g = Ok false ->
  forall r row c v,
    nth_error sh r = Some row -> nth_error row c = Some v -> is1 v = true ->
    0 <= x0 + Z.of_nat c < GRID_WIDTH
    /\ y0 + Z.of_nat r < GRID_HEIGHT
    /\ (0 <= y0 + Z.of_nat r ->
        gridIs1 g (Num (y0 + Z.of_nat r)) (Num (x0 + Z.of_nat c)) = Ok false).
Proof.
  unfold isCollision, someM. intros H r row c v Hr Hc Hv.
  pose proof (someFromM_false_at _ _ 0 H r row Hr) as Hrow. cbn beta in Hrow.
  pose proof (someFromM_false_at _ _ 0 Hrow c v Hc) as Hcell.
  cbn beta zeta in Hcell. rewrite Hv in Hcell. cbn [vadd vge vlt] in Hcell.
  replace (0 + Z.of_nat r) with (Z.of_nat r) in Hcell by lia.
  replace (0 + Z.of_nat c) with (Z.of_nat c) in Hcell by lia.
  unfold GRID_HEIGHT, GRID_WIDTH in *.
  destruct (Z.leb_spec 20 (y0 + Z.of_nat r)); [discriminate Hcell|].
  destruct (Z.ltb_spec (x0 + Z.of_nat c) 0); [discriminate Hcell|].
  destruct (Z.leb_spec 10 (x0 + Z.of_nat c)); [discriminate Hcell|].
  cbn [orb] in Hcell.
  split; [lia|]. split; [lia|]. intros Hy.
  destruct (Z.leb_spec 0 (y0 + Z.of_nat r)); [exact Hcell|lia].
Qed.

Lemma vadd_binary_zero (v : value) :
  isBinary v = true -> vadd v (Num 0) = v.
Proof.
  destruct v as [[|[| |]|]| |]; try discriminate; reflexivity.
Qed.

Lemma binary_not_one (v : value) :
  isBinary v = true -> is1 v = false -> v = Num 0.
Proof.
  destruct v as [[|[| |]|]| |]; try discriminate; reflexivity.
Qed.

Lemma binary_cases (v : value) :
  isBinary v = true -> v = Num 0 \/ v = Num 1.
Proof.
  destruct v as [[|[| |]|]| |]; try discriminate; auto.
Qed.

Lemma updateGrid_gridShape (g : Matrix) (t : Tetromino) (x0 y0 : Z) :
  gridShape g -> shapeOkB (shape t) = true ->
  x t = Num x0 -> y t = Num y0 ->
  isCollision (Num x0) (Num y0) (shape t) g = Ok false ->
  exists merged, updateGrid g t = Ok merged /\ gridShape merged.
Proof.
  intros [Hh Hrows] Hsh Hx Hy Hcol. unfold updateGrid. rewrite Hx, Hy.
  destruct (shape t) as [|row0 rest] eqn:Es; [discriminate Hsh|].
  rewrite <- Es in *. eexists. split; [reflexivity|].
  assert (List.length row0 = List.length (shape t)) as Hrow0.
  { apply (shapeOkB_cell _ Hsh 0%nat row0). rewrite Es. reflexivity. }
  unfold gridShape, fullHeight, mapi. rewrite length_mapFrom.
  split; [exact Hh|].
  apply Forall_mapFrom. intros n row Hn.
  rewrite Forall_forall in Hrows.
  destruct (Hrows row (nth_error_In _ _ Hn)) as [Hlen Hbin].
  rewrite length_mapFrom. split; [exact Hlen|].
  apply Forall_mapFrom. intros m c Hm.
  rewrite Forall_forall in Hbin.
  pose proof (Hbin c (nth_error_In _ _ Hm)) as Hc.
  replace (0 + Z.of_nat n) with (Z.of_nat n) by lia.
  replace (0 + Z.of_nat m) with (Z.of_nat m) by lia.
  cbn [vge vlt vadd vsub].
  destruct (Z.leb_spec y0 (Z.of_nat n)) as [Hy1|_]; [|exact Hc].
  destruct (Z.ltb_spec (Z.of_nat n) (y0 + Z.of_nat (List.length (shape t))))
    as [Hy2|_]; [|exact Hc].
  destruct (Z.leb_spec x0 (Z.of_nat m)) as [Hx1|_]; [|exact Hc].
  destruct (Z.ltb_spec (Z.of_nat m) (x0 + Z.of_nat (List.length row0)))
    as [Hx2|_]; [|exact Hc].
  cbn [andb]. unfold shapeAt.
  replace (Z.of_nat n - y0) with (Z.of_nat (Z.to_nat (Z.of_nat n - y0))) by lia.
  rewrite lookup_nat.
  destruct (nth_error (shape t) (Z.to_nat (Z.of_nat n - y0))) as [srow|] eqn:Er;
    [|apply nth_error_None in Er; lia].
  destruct (shapeOkB_cell _ Hsh _ _ Er) as [Hsl Hsb].
  unfold cellAt.
  replace (Z.of_nat m - x0) with (Z.of_nat (Z.to_nat (Z.of_nat m - x0))) by lia.
  rewrite lookup_nat.
  destruct (nth_error srow (Z.to_nat (Z.of_nat m - x0))) as [v|] eqn:Ec;
    [|apply nth_error_None in Ec; lia].
  destruct (binary_cases v (Hsb _ _ Ec)) as [-> | ->].
  - rewrite vadd_binary_zero; assumption.
  - destruct (isCollision_false_cell x0 y0 _ g Hcol _ _ _ _ Er Ec eq_refl)
      as (_ & _ & Hg).
    replace (y0 + Z.of_nat (Z.to_nat (Z.of_nat n - y0))) with (Z.of_nat n) in Hg by lia.
    replace (x0 + Z.of_nat (Z.to_nat (Z.of_nat m - x0))) with (Z.of_nat m) in Hg by lia.
    specialize (Hg ltac:(lia)). unfold gridIs1 in Hg.
    rewrite lookup_nat, Hn in Hg. unfold cellAt in Hg.
    rewrite lookup_nat, Hm in Hg. injection Hg as Hg.
    rewrite (binary_not_one c Hc Hg). reflexivity.
Qed.

Lemma filter_partition_length {A : Type} (f : A -> bool) (l : list A) :
  (List.length (filter f l) + List.length (filter (fun a => negb (f a)) l)
   = List.length l)%nat.
Proof.
  induction l as [|a l IH]; [reflexivity|]. cbn [filter].
  destruct (f a); cbn [negb List.length]; lia.
Qed.

Lemma clearCompletedRows_gridOk (g : Matrix) :
  gridShape g -> gridOk (fst (clearCompletedRows g)).
Proof.
  intros [Hh Hrows]. rewrite clearCompletedRows_rows. cbn [fst].
  unfold gridOk, fullHeight in *. split.
  - rewrite length_app, repeat_length.
    rewrite filter_partition_length. exact Hh.
  - apply Forall_app. split.
    + apply Forall_forall. intros row Hin. apply repeat_spec in Hin. subst row.
      split; [reflexivity|]. split; [|reflexivity]. repeat constructor.
    + apply Forall_forall. intros row Hin. apply filter_In in Hin.
      destruct Hin as [Hin Hnf]. rewrite Forall_forall in Hrows.
      destruct (Hrows row Hin) as [Hl Hb].
      split; [exact Hl|]. split; [exact Hb|].
      apply negb_true_iff. exact Hnf.
Qed.

Lemma gridOk_gridShape (g : Matrix) : gridOk g -> gridShape g.
Proof.
  intros [Hh Hrows]. split; [exact Hh|].
  apply Forall_forall. intros row Hin. rewrite Forall_forall in Hrows.
  destruct (Hrows row Hin) as (Hl & Hb & _). split; assumption.
Qed.

Lemma emptyGrid_gridOk : gridOk emptyGrid.
Proof.
  split; [reflexivity|]. repeat constructor.
Qed.

(** ** Every operation keeps the invariant *)

Lemma isLegal_true_iff (t : Tetromino) (g : Matrix) :
  isLegal t g = Ok true <->
  isCollision (x t) (y t) (shape t) g = Ok false
  /\ isOutOfBounds (x t) (y t) (shape t) = false.
Proof.
  unfold isLegal.
  destruct (isCollision _ _ _ _) as [c| |]; cbn [bind];
    try (split; [discriminate|intros [H _]; discriminate H]).
  destruct c; cbn [negb].
  - split; [discriminate|intros [H _]; discriminate H].
  - destruct (isOutOfBounds _ _ _); cbn [negb].
    + split; [discriminate|intros [_ H]; discriminate H].
    + split; auto.
Qed.

Lemma validPiece_hasCell (t : Tetromino) :
  validPiece t -> hasCell (shape t) = true.
Proof.
  intros H. piece_cases t H; reflexivity.
Qed.

Lemma freshPiece_valid (t : Tetromino) : freshPiece t -> validPiece t.
Proof.
  intros [k [Hk ->]]. apply spawned_valid, Hk.
Qed.

Lemma freshPiece_legal (t : Tetromino) (g : Matrix) :
  freshPiece t -> isLegal t g = Ok true.
Proof.
  intros [k [Hk ->]]. apply spawned_legal, Hk.
Qed.

Lemma validPiece_reset_fresh (t : Tetromino) :
  validPiece t -> exists t', resetPosition t = Ok t' /\ freshPiece t'.
Proof.
  intros H. exists (spawned (key t)). split; [apply validPiece_reset, H|].
  exists (key t). split; [apply H|reflexivity].
Qed.

Lemma wellFormed_withCurrent (s : State) (t : Tetromino) :
  wellFormed s -> validPiece t -> isLegal t (grid s) = Ok true ->
  wellFormed (withCurrent s t).
Proof.
  intros (Hg & _ & _ & Hn & Hh & Hl & Hs) Hv Hlegal.
  unfold wellFormed, withCurrent.
  cbn [grid currentTetromino nextTetromino holdTetromino level score].
  split; [exact Hg|]. split; [exact Hv|]. split; [exact Hlegal|].
  split; [exact Hn|]. split; [exact Hh|]. split; assumption.
Qed.

Lemma wellFormed_withGameRestart (s : State) (b : bool) :
  wellFormed s -> wellFormed (withGameRestart s b).
Proof.
  intros H. exact H.
Qed.

Lemma moveTetromino_wellFormed (s : State) (dx dy : Z) :
  wellFormed s ->
  exists s', moveTetromino s dx dy = Ok s' /\ wellFormed s'.
Proof.
  intros Hwf. pose proof Hwf as (Hg & Hv & _).
  destruct Hv as (Hk & Ho & Hs & Hc & (x0 & y0 & Hx & Hy)).
  unfold moveTetromino. rewrite Hx, Hy. cbn [vadd withXY x y shape].
  destruct (isCollision_total (Num (x0 + dx)) (Num (y0 + dy))
              (shape (currentTetromino s)) (grid s) (proj1 Hg)) as [c Hcol].
  rewrite Hcol. cbn [bind].
  destruct c; cbn [orb]; [exists s; split; [reflexivity|exact Hwf]|].
  destruct (isOutOfBounds _ _ _) eqn:Hoob;
    [exists s; split; [reflexivity|exact Hwf]|].
  eexists. split; [reflexivity|].
  apply wellFormed_withCurrent; [exact Hwf| |].
  - apply validPiece_withXY. repeat split; try assumption; try lia.
    exists x0, y0. split; assumption.
  - apply isLegal_true_iff. cbn [withXY x y shape]. split; assumption.
Qed.

Lemma rotateTetromino_wellFormed (s : State) :
  wellFormed s ->
  exists s', rotateTetromino s = Ok s' /\ wellFormed s'.
Proof.
  intros Hwf. pose proof Hwf as (Hg & Hv & Hlegal & _).
  destruct (validPiece_rotated _ Hv) as [rsh [Hr Hvr]].
  rewrite (rotateTetromino_unfold s rsh Hr).
  rewrite (isLegal_total _ _ (proj1 Hg)). cbn [bind].
  destruct (isLegalB (rotated (currentTetromino s) rsh) (grid s)) eqn:Hb.
  - eexists. split; [reflexivity|].
    apply wellFormed_withCurrent; [exact Hwf|exact Hvr|].
    rewrite (isLegal_total _ _ (proj1 Hg)), Hb. reflexivity.
  - assert (key (currentTetromino s) <> "O") as HnotO.
    { intros HO. pose proof (validPiece_O_turn _ Hv HO) as Hsame.
      rewrite Hsame in Hr. injection Hr as <-.
      unfold isLegalB, isLegal in Hb. cbn [rotated x y shape] in Hb.
      unfold isLegal in Hlegal. rewrite Hlegal in Hb. discriminate Hb. }
    destruct (validPiece_kickTests _ Hv HnotO) as [tests [Ht Hpairs]].
    rewrite (attemptWallKick_find _ _ _ tests (proj1 Hg) Ht). cbn [bind].
    destruct (find _ tests) as [test|] eqn:Hf; cbn [option_map].
    + eexists. split; [reflexivity|].
      apply find_some in Hf. destruct Hf as [Hin Hl].
      rewrite Forall_forall in Hpairs.
      destruct (Hpairs test Hin) as [dx [dy ->]].
      destruct Hvr as (Hk & Ho & Hs & Hc & (x0 & y0 & Hx & Hy)).
      apply wellFormed_withCurrent; [exact Hwf| |].
      * unfold kicked. rewrite Hx, Hy. cbn [offsetAt lookup Z.ltb Z.compare
          Z.to_nat nth_error vadd Pos.to_nat Pos.iter_op Nat.add].
        apply validPiece_withXY. repeat split; try assumption; try lia.
        exists x0, y0. split; assumption.
      * rewrite (isLegal_total _ _ (proj1 Hg)), Hl. reflexivity.
    + exists s. split; [reflexivity|exact Hwf].
Qed.

Lemma updateState_wellFormed (s : State) (code : string) :
  wellFormed s ->
  exists s', updateState s code = Ok s' /\ wellFormed s'.
Proof.
  intros Hwf. unfold updateState.
  repeat match goal with
         | |- context [if ?b then _ else _] => destruct b
         end;
    try apply moveTetromino_wellFormed; try apply rotateTetromino_wellFormed;
    try assumption.
  exists s. split; [reflexivity|exact Hwf].
Qed.

Lemma dropOneStepRecursive_wellFormed (fuel : nat) :
  forall s s', wellFormed s -> dropOneStepRecursive fuel s = Ok s' ->
               wellFormed s'.
Proof.
  induction fuel as [|fuel IH]; intros s s' Hwf; cbn [dropOneStepRecursive];
    [discriminate|].
  case_bind.
  match goal with |- context [if ?b then _ else _] => destruct b end;
    [intros [= <-]; exact Hwf|].
  destruct (moveTetromino_wellFormed s 0 1 Hwf) as [s1 [Hm Hwf1]].
  rewrite Hm. cbn [bind]. apply IH, Hwf1.
Qed.

Lemma isGameEnd_total (s : State) :
  wellFormed s -> exists b, isGameEnd s = Ok b.
Proof.
  intros (Hg & Hv & _). unfold isGameEnd.
  destruct (isSettled_total (currentTetromino s) (grid s) (proj1 Hg)) as [b ->].
  cbn [bind]. pose proof (validPiece_shapeOk _ Hv) as Hsh.
  destruct (b && _); [|eexists; reflexivity].
  destruct (shape (currentTetromino s)); [discriminate Hsh|].
  eexists; reflexivity.
Qed.

Lemma tick_settle_wellFormed (s : State) (nxt : Tetromino) (merged : Matrix) :
  wellFormed s -> freshPiece nxt ->
  updateGrid (grid s) (currentTetromino s) = Ok merged ->
  wellFormed
    (mkState (gameEnd s) (gamePause s) (gameRestart s)
             (fst (clearCompletedRows merged)) (nextTetromino s) nxt
             (holdTetromino s)
             ((score s + snd (clearCompletedRows merged) * 100) / 1000)
             (score s + snd (clearCompletedRows merged) * 100)
             (if highScore s <? score s + snd (clearCompletedRows merged) * 100
              then score s + snd (clearCompletedRows merged) * 100
              else highScore s)).
Proof.
  intros (Hg & Hv & Hlegal & Hn & Hh & Hl & (n & Hn0 & Hs)) Hnxt Hm.
  apply isLegal_true_iff in Hlegal. destruct Hlegal as [Hcol _].
  pose proof Hv as (_ & _ & _ & _ & (x0 & y0 & Hx & Hy)).
  rewrite Hx, Hy in Hcol.
  destruct (updateGrid_gridShape _ _ x0 y0 (gridOk_gridShape _ Hg)
              (validPiece_shapeOk _ Hv) Hx Hy Hcol) as [merged' [Hm' Hshape]].
  rewrite Hm in Hm'. injection Hm' as <-.
  unfold wellFormed.
  cbn [grid currentTetromino nextTetromino holdTetromino level score].
  split; [apply clearCompletedRows_gridOk, Hshape|].
  split; [apply freshPiece_valid, Hn|].
  split; [apply freshPiece_legal, Hn|].
  split; [exact Hnxt|]. split; [exact Hh|]. split; [reflexivity|].
  rewrite clearCompletedRows_rows. cbn [snd].
  exists (n + Z.of_nat (List.length (filter isFull merged))). split; lia.
Qed.

Lemma tick_wellFormed (s s' : State) (rng : float) :
  wellFormed s -> tick s rng = Ok s' -> wellFormed s'.
Proof.
  intros Hwf. unfold tick. case_bind.
  match goal with |- context [if ?b then _ else _] => destruct b end;
    [intros [= <-]; exact Hwf|].
  case_bind.
  match goal with |- context [if ?b then _ else _] => destruct b end.
  - case_bind.
    match goal with H : updateGrid _ _ = Ok ?m |- _ =>
      pose proof (tick_settle_wellFormed s) as Hsettle;
      destruct (clearCompletedRows m) as [cleared rows] eqn:Ec end.
    case_bind.
    match goal with
    | H : getRandomTetromino _ = Ok ?t, Hu : updateGrid _ _ = Ok ?m |- _ =>
        specialize (Hsettle t m Hwf (getRandomTetromino_fresh _ _ H) Hu)
    end.
    rewrite Ec in Hsettle. cbn [fst snd] in Hsettle.
    intros [= <-]. exact Hsettle.
  - destruct (gamePause s || gameEnd s); [intros [= <-]; exact Hwf|].
    destruct (moveTetromino_wellFormed s 0 1 Hwf) as [s1 [Hm Hwf1]].
    rewrite Hm. cbn [bind]. intros [= <-]. exact Hwf1.
Qed.

Lemma holdState_wellFormed (s s' : State) (rng : float) :
  wellFormed s -> holdState s rng = Ok s' -> wellFormed s'.
Proof.
  intros (Hg & Hv & Hlegal & Hn & Hh & Hl & Hs). unfold holdState.
  destruct (validPiece_reset_fresh _ Hv) as [c' [Hc' Hfc]].
  destruct (holdTetromino s) as [h|] eqn:Eh.
  - destruct (validPiece_reset_fresh h (freshPiece_valid _ (Hh h eq_refl)))
      as [h' [Hh' Hfh]].
    rewrite Hh', Hc'. cbn [bind]. intros [= <-].
    unfold wellFormed.
  cbn [grid currentTetromino nextTetromino holdTetromino level score].
    split; [exact Hg|]. split; [apply freshPiece_valid, Hfh|].
    split; [apply freshPiece_legal, Hfh|]. split; [exact Hn|].
    split; [intros h0 [= <-]; exact Hfc|]. split; assumption.
  - case_bind. rewrite Hc'. cbn [bind]. intros [= <-].
    unfold wellFormed.
  cbn [grid currentTetromino nextTetromino holdTetromino level score].
    split; [exact Hg|]. split; [apply freshPiece_valid, Hn|].
    split; [apply freshPiece_legal, Hn|].
    split; [eapply getRandomTetromino_fresh; eassumption|].
    split; [intros h0 [= <-]; exact Hfc|]. split; assumption.
Qed.

Lemma INITIAL_STATE_wellFormed (seed : float) (s0 : State) :
  INITIAL_STATE seed = Ok s0 -> wellFormed s0.
Proof.
  unfold INITIAL_STATE. do 2 case_bind. intros [= <-].
  unfold wellFormed.
  cbn [grid currentTetromino nextTetromino holdTetromino level score].
  match goal with
  | H1 : getRandomTetromino seed = Ok ?c, H2 : getRandomTetromino _ = Ok ?n |- _ =>
      pose proof (getRandomTetromino_fresh _ _ H1) as Hc;
      pose proof (getRandomTetromino_fresh _ _ H2) as Hn
  end.
  split; [apply emptyGrid_gridOk|]. split; [apply freshPiece_valid, Hc|].
  split; [apply freshPiece_legal, Hc|]. split; [exact Hn|].
  split; [discriminate|]. split; [reflexivity|].
  exists 0. split; [lia|reflexivity].
Qed.

Lemma handleInput_wellFormed (seed : float) (fuel : nat) (s s' : State) (i : Input) :
  wellFormed s -> handleInput seed fuel s i = Ok s' -> wellFormed s'.
Proof.
  intros Hwf. unfold handleInput.
  destruct (isMovement s i).
  { destruct i as [rng|code|target|rng code]; try (intros [= <-]; exact Hwf).
    destruct (updateState_wellFormed s code Hwf) as [u [Hu Hwfu]].
    rewrite Hu. cbn [bind]. intros [= <-]. exact Hwfu. }
  destruct (isPause i); [intros [= <-]; exact Hwf|].
  destruct (isRestart i).
  { case_bind. intros [= <-].
    match goal with H : INITIAL_STATE _ = Ok _ |- _ =>
      apply INITIAL_STATE_wellFormed in H; exact H end. }
  destruct (isHardDrop s i).
  { destruct i as [rng|code|target|rng code]; try (intros [= <-]; exact Hwf).
    unfold hardDrop, dropTetromino. case_bind.
    match goal with H : dropOneStepRecursive _ _ = Ok _ |- _ =>
      apply (dropOneStepRecursive_wellFormed _ _ _ Hwf) in H;
      apply tick_wellFormed; exact H end. }
  destruct (isHold s i).
  { destruct i as [rng|code|target|rng code]; try (intros [= <-]; exact Hwf).
    case_bind. intros [= <-].
    match goal with H : holdState _ _ = Ok _ |- _ =>
      apply (holdState_wellFormed _ _ _ Hwf) in H; exact H end. }
  destruct (gameEnd s || gamePause s); [intros [= <-]; exact Hwf|].
  apply tick_wellFormed, Hwf.
Qed.

Lemma reachable_wellFormed (seed : float) (s : State) :
  reachable seed s -> wellFormed s.
Proof.
  induction 1 as [s0 H0|s s' fuel i _ IH Hstep].
  - exact (INITIAL_STATE_wellFormed seed s0 H0).
  - exact (handleInput_wellFormed seed fuel s s' i IH Hstep).
Qed.

Lemma afterDrop_reachable : reachable sampleSeed afterDrop.
Proof.
  apply (reach_step sampleSeed (startOf sampleSeed) afterDrop 30%nat
                    (InPair sampleSeed "Space")).
  - apply reach_init. vm_compute. reflexivity.
  - vm_compute. reflexivity.
Qed.

(** ** What holds in every state of a game *)

(** In every reachable state the grid has [GRID_HEIGHT] rows of [GRID_WIDTH]
    cells, every cell holds 0 or 1 (the additive merge never gives 2 or
    [NaN]), and no row is full. *)
Theorem reachable_grid (seed : float) (s : State) :
  reachable seed s ->
  List.length (grid s) = Z.to_nat GRID_HEIGHT
  /\ Forall (fun row => List.length row = Z.to_nat GRID_WIDTH
                        /\ Forall (fun v => v = Num 0 \/ v = Num 1) row
                        /\ isFull row = false) (grid s).
Proof.
  intros Hr. destruct (reachable_wellFormed seed s Hr) as [[Hh Hrows] _].
  split; [exact Hh|].
  apply Forall_forall. intros row Hin. rewrite Forall_forall in Hrows.
  destruct (Hrows row Hin) as (Hl & Hb & Hf).
  split; [exact Hl|]. split; [|exact Hf].
  apply Forall_forall. intros v Hv. rewrite Forall_forall in Hb.
  apply binary_cases, Hb, Hv.
Qed.

Lemma reachable_grid_witness :
  List.length (grid afterDrop) = 20%nat
  /\ Forall (fun row => List.length row = 10%nat
                        /\ Forall (fun v => v = Num 0 \/ v = Num 1) row
                        /\ isFull row = false) (grid afterDrop).
Proof.
  apply (reachable_grid sampleSeed afterDrop).
  apply (reach_step sampleSeed (startOf sampleSeed) afterDrop 30%nat
                    (InPair sampleSeed "Space")).
  - apply reach_init. vm_compute. reflexivity.
  - vm_compute. reflexivity.
Defined.

(** In every reachable state the active piece is of one of the seven kinds
    in one of its four orientations, with the shape of that orientation, at
    integer coordinates (never [NaN]), and its placement neither collides
    nor is out of bounds. *)
Theorem reachable_piece (seed : float) (s : State) :
  reachable seed s ->
  validPiece (currentTetromino s)
  /\ isCollision (x (currentTetromino s)) (y (currentTetromino s))
                 (shape (currentTetromino s)) (grid s) = Ok false
  /\ isOutOfBounds (x (currentTetromino s)) (y (currentTetromino s))
                   (shape (currentTetromino s)) = false.
Proof.
  intros Hr. destruct (reachable_wellFormed seed s Hr) as (_ & Hv & Hl & _).
  split; [exact Hv|]. apply isLegal_true_iff, Hl.
Qed.

Lemma reachable_piece_witness :
  validPiece (currentTetromino afterDrop)
  /\ isCollision (x (currentTetromino afterDrop)) (y (currentTetromino afterDrop))
                 (shape (currentTetromino afterDrop)) (grid afterDrop) = Ok false
  /\ isOutOfBounds (x (currentTetromino afterDrop)) (y (currentTetromino afterDrop))
                   (shape (currentTetromino afterDrop)) = false.
Proof.
  apply (reachable_piece sampleSeed afterDrop).
  apply (reach_step sampleSeed (startOf sampleSeed) afterDrop 30%nat
                    (InPair sampleSeed "Space")).
  - apply reach_init. vm_compute. reflexivity.
  - vm_compute. reflexivity.
Defined.

(** In every reachable state the next piece and the held piece, if any, are
    pieces as [getRandomTetromino] builds them: spawn shape, orientation 0,
    spawn position; such a piece is legally placed on every grid. *)
Theorem reachable_queue (seed : float) (s : State) :
  reachable seed s ->
  (exists k, isKind k = true /\ nextTetromino s = spawned k)
  /\ (forall h, holdTetromino s = Some h ->
                exists k, isKind k = true /\ h = spawned k)
  /\ (forall k g, isKind k = true -> isLegal (spawned k) g = Ok true).
Proof.
  intros Hr. destruct (reachable_wellFormed seed s Hr) as (_ & _ & _ & Hn & Hh & _).
  split; [exact Hn|]. split; [exact Hh|].
  intros k g Hk. apply spawned_legal, Hk.
Qed.

Lemma reachable_queue_witness :
  (exists k, isKind k = true /\ nextTetromino afterDrop = spawned k)
  /\ (forall h, holdTetromino afterDrop = Some h ->
                exists k, isKind k = true /\ h = spawned k)
  /\ (forall k g, isKind k = true -> isLegal (spawned k) g = Ok true).
Proof.
  apply (reachable_queue sampleSeed afterDrop).
  apply (reach_step sampleSeed (startOf sampleSeed) afterDrop 30%nat
                    (InPair sampleSeed "Space")).
  - apply reach_init. vm_compute. reflexivity.
  - vm_compute. reflexivity.
Defined.

(** In every reachable state the score is a non-negative multiple of 100,
    the level is the floor of the score over 1000, and the high score is
    not below the score. *)
Theorem reachable_scores (seed : float) (s : State) :
  reachable seed s ->
  (exists n, 0 <= n /\ score s = 100 * n)
  /\ level s = score s / 1000
  /\ score s <= highScore s.
Proof.
  intros Hr.
  destruct (reachable_wellFormed seed s Hr) as (_ & _ & _ & _ & _ & Hl & Hs).
  destruct (reachable_scoresOrdered seed s Hr) as [_ Hle].
  split; [exact Hs|]. split; assumption.
Qed.

Lemma reachable_scores_witness :
  (exists n, 0 <= n /\ score afterDrop = 100 * n)
  /\ level afterDrop = score afterDrop / 1000
  /\ score afterDrop <= highScore afterDrop.
Proof.
  apply (reachable_scores sampleSeed afterDrop).
  apply (reach_step sampleSeed (startOf sampleSeed) afterDrop 30%nat
                    (InPair sampleSeed "Space")).
  - apply reach_init. vm_compute. reflexivity.
  - vm_compute. reflexivity.
Defined.

(** ** No transition throws in play *)

Lemma tick_total (s : State) (rng : float) :
  wellFormed s -> (exists t, getRandomTetromino rng = Ok t) ->
  exists s', tick s rng = Ok s'.
Proof.
  intros Hwf [t Ht]. pose proof Hwf as (Hg & Hv & _). unfold tick.
  destruct (isGameEnd_total s Hwf) as [e ->]. cbn [bind].
  destruct e; [eexists; reflexivity|].
  destruct (isSettled_total (currentTetromino s) (grid s) (proj1 Hg)) as [b ->].
  cbn [bind]. destruct b.
  - assert (exists merged, updateGrid (grid s) (currentTetromino s) = Ok merged)
      as [merged ->].
    { pose proof (validPiece_shapeOk _ Hv) as Hsh. unfold updateGrid.
      destruct (shape (currentTetromino s)); [discriminate Hsh|].
      eexists; reflexivity. }
    cbn [bind]. destruct (clearCompletedRows merged) as [cleared rows].
    rewrite Ht. cbn [bind]. eexists; reflexivity.
  - destruct (gamePause s || gameEnd s); [eexists; reflexivity|].
    destruct (moveTetromino_wellFormed s 0 1 Hwf) as [s1 [-> _]].
    cbn [bind]. eexists; reflexivity.
Qed.

Lemma holdState_total (s : State) (rng : float) :
  wellFormed s -> (exists t, getRandomTetromino rng = Ok t) ->
  exists s', holdState s rng = Ok s'.
Proof.
  intros (_ & Hv & _ & _ & Hh & _) [t Ht]. unfold holdState.
  destruct (validPiece_reset_fresh _ Hv) as [c' [Hc' _]].
  destruct (holdTetromino s) as [h|] eqn:Eh.
  - destruct (validPiece_reset_fresh h (freshPiece_valid _ (Hh h eq_refl)))
      as [h' [-> _]].
    rewrite Hc'. cbn [bind]. eexists; reflexivity.
  - rewrite Ht, Hc'. cbn [bind]. eexists; reflexivity.
Qed.

Lemma dropOneStepRecursive_total (s : State) (y0 : Z) (fuel : nat) :
  wellFormed s -> y (currentTetromino s) = Num y0 ->
  Z.max 0 (GRID_HEIGHT - 1 - y0) < Z.of_nat fuel ->
  exists s', dropOneStepRecursive fuel s = Ok s'.
Proof.
  intros (Hg & Hv & _) Hy Hfuel.
  pose proof Hv as (_ & _ & _ & _ & (x0 & y1 & Hx & Hy1)).
  rewrite Hy in Hy1. injection Hy1 as <-.
  destruct (dropOneStepRecursive_descends
              (Z.to_nat (Z.max 0 (GRID_HEIGHT - 1 - y0))) s x0 y0
              (proj1 Hg) (validPiece_hasCell _ Hv) Hx Hy ltac:(lia))
    as [k [Hk [_ Hrun]]].
  eexists. apply Hrun. lia.
Qed.

Lemma reachable_loaded (seed : float) (s : State) :
  reachable seed s -> exists s0, INITIAL_STATE seed = Ok s0.
Proof.
  induction 1 as [s0 H0|s s' fuel i _ IH _]; [exists s0; exact H0|exact IH].
Qed.

(** From a reachable state the reducer returns a state for every keyboard
    event, every click on the pause or restart button, and every number or
    hard-drop or hold pair whose random number draws a piece, as soon as the
    fuel exceeds the distance of the piece to the floor: nothing throws. *)
Theorem handleInput_returns (seed : float) (s : State) (i : Input) (fuel : nat) :
  reachable seed s ->
  usableInput i ->
  (forall y0, y (currentTetromino s) = Num y0 ->
              Z.max 0 (GRID_HEIGHT - 1 - y0) < Z.of_nat fuel) ->
  exists s', handleInput seed fuel s i = Ok s' /\ reachable seed s'.
Proof.
  intros Hr Hi Hfuel.
  pose proof (reachable_wellFormed seed s Hr) as Hwf.
  assert (exists s', handleInput seed fuel s i = Ok s') as [s' Hs'].
  { unfold handleInput.
    destruct i as [rng|code|target|rng code]; cbn [usableInput] in Hi;
      cbn [isMovement isPause isRestart isHardDrop isHold asNumber].
    - destruct (gameEnd s || gamePause s); [eexists; reflexivity|].
      apply tick_total; assumption.
    - destruct (negb (gameEnd s) && negb (gamePause s)) eqn:Hrun.
      + destruct (updateState_wellFormed s code Hwf) as [u [-> _]].
        cbn [bind]. eexists; reflexivity.
      + destruct (gameEnd s), (gamePause s); try discriminate Hrun;
          eexists; reflexivity.
    - destruct target; try (exfalso; apply Hi; reflexivity).
      + eexists; reflexivity.
      + destruct (reachable_loaded seed s Hr) as [s0 ->]. cbn [bind].
        eexists; reflexivity.
    - destruct Hi as [Hcode Hdraw].
      destruct (gameEnd s) eqn:He, (gamePause s) eqn:Hp;
        cbn [negb orb]; rewrite ?andb_false_r, ?andb_true_r;
        try (eexists; reflexivity).
      destruct Hcode as [-> | ->].
      + rewrite String.eqb_refl.
        unfold hardDrop, dropTetromino.
        pose proof Hwf as (_ & Hv & _).
        destruct Hv as (_ & _ & _ & _ & (x0 & y0 & _ & Hy)).
        destruct (dropOneStepRecursive_total s y0 fuel Hwf Hy (Hfuel y0 Hy))
          as [d Hd].
        rewrite Hd. cbn [bind]. apply tick_total; [|exact Hdraw].
        apply (dropOneStepRecursive_wellFormed fuel s d Hwf Hd).
      + replace (String.eqb "KeyC" "Space") with false by reflexivity.
        rewrite String.eqb_refl.
        destruct (holdState_total s rng Hwf Hdraw) as [h ->].
        cbn [bind]. eexists; reflexivity. }
  exists s'. split; [exact Hs'|].
  exact (reach_step seed s s' fuel i Hr Hs').
Qed.

Lemma handleInput_returns_witness :
  exists s', handleInput sampleSeed 30 afterDrop (InKeyboard "ArrowUp") = Ok s'
             /\ reachable sampleSeed s'.
Proof.
  apply (handleInput_returns sampleSeed afterDrop (InKeyboard "ArrowUp") 30%nat).
  - apply (reach_step sampleSeed (startOf sampleSeed) afterDrop 30%nat
                      (InPair sampleSeed "Space")).
    + apply reach_init. vm_compute. reflexivity.
    + vm_compute. reflexivity.
  - exact I.
  - intros y0 Hy. vm_compute in Hy. injection Hy as <-. reflexivity.
Defined.

(** ** The reducer while paused or ended *)

(** While the game is paused or ended, every input other than a click on
    the restart button leaves the state as it is, except that a click on
    the pause button flips the paused flag and clears the just-restarted
    flag.  Ticks, keys, hard drops and holds are ignored, and nothing
    throws. *)
Theorem handleInput_paused_or_ended (seed : float) (fuel : nat) (s : State) (i : Input) :
  gameEnd s || gamePause s = true ->
  isRestart i = false ->
  handleInput seed fuel s i =
    Ok (if isPause i
        then withGameRestart (withGamePause s (negb (gamePause s))) false
        else s).
Proof.
  intros Hidle Hnot. unfold handleInput.
  assert (negb (gameEnd s) && negb (gamePause s) = false) as Hrun.
  { destruct (gameEnd s), (gamePause s); try reflexivity; discriminate Hidle. }
  destruct i as [rng|code|target|rng code];
    cbn [isMovement isPause isRestart isHardDrop isHold] in *.
  - rewrite Hidle. reflexivity.
  - rewrite Hrun, Hidle. reflexivity.
  - destruct target; try discriminate Hnot; [reflexivity|].
    rewrite Hidle. reflexivity.
  - rewrite <- !andb_assoc, Hrun, !andb_false_r, Hidle. reflexivity.
Qed.

Lemma handleInput_paused_or_ended_witness :
  handleInput sampleSeed 30 pausedI (InPair sampleSeed "Space") = Ok pausedI.
Proof.
  apply (handleInput_paused_or_ended sampleSeed 30 pausedI
           (InPair sampleSeed "Space")); reflexivity.
Defined.

(** Two clicks on the pause button give the state back, with the
    just-restarted flag cleared: grid, pieces, scores and the other flags
    are as before. *)
Theorem pause_twice (seed : float) (fuel1 fuel2 : nat) (s : State) :
  (s1 <- handleInput seed fuel1 s pauseClick ;;
   handleInput seed fuel2 s1 pauseClick)
  = Ok (withGameRestart s false).
Proof.
  unfold handleInput, pauseClick. cbn [isMovement isPause bind].
  destruct s as [e p r g c n h l sc hs].
  unfold withGameRestart, withGamePause. cbn.
  rewrite negb_involutive. reflexivity.
Qed.

(** ** Scores along a step *)

Lemma tick_scores_grow (s s' : State) (rng : float) :
  tick s rng = Ok s' ->
  highScore s <= highScore s'
  /\ exists n, 0 <= n /\ score s' = score s + 100 * n.
Proof.
  unfold tick. case_bind.
  match goal with |- context [if ?b then _ else _] => destruct b end.
  { intros [= <-]. split; [cbn; lia|]. exists 0. split; [lia|cbn; lia]. }
  case_bind.
  match goal with |- context [if ?b then _ else _] => destruct b end.
  - case_bind.
    match goal with |- context [clearCompletedRows ?m] =>
      rewrite (clearCompletedRows_rows m) end.
    case_bind. intros [= <-]. cbn [score highScore].
    split.
    + match goal with |- context [if ?b then _ else _] =>
        destruct b eqn:Hlt end; [apply Z.ltb_lt in Hlt|]; lia.
    + eexists. split; [|rewrite Z.mul_comm; reflexivity]. lia.
  - destruct (gamePause s || gameEnd s).
    { intros [= <-]. split; [lia|]. exists 0. split; lia. }
    case_bind.
    match goal with H : moveTetromino _ _ _ = Ok _ |- _ =>
      apply moveTetromino_scores in H; destruct H as [H1 H2] end.
    intros [= <-]. cbn [score highScore withGameRestart].
    split; [lia|]. exists 0. split; lia.
Qed.

(** From a state whose score is an exact integer, along any step of the
    reducer the high score never decreases; along any step other than a
    restart the score grows by a non-negative multiple of 100.  (Beyond
    2^53 the sum of the code rounds, and the gain need not be a multiple of
    100 any more.) *)
Theorem handleInput_scores_grow (seed : float) (fuel : nat) (s s' : State) (i : Input) :
  exactInt (score s) ->
  handleInput seed fuel s i = Ok s' ->
  highScore s <= highScore s'
  /\ (isRestart i = false ->
      exists n, 0 <= n /\ score s' = score s + 100 * n).
Proof.
  intros _.
  assert (forall a b : State,
             score b = score a /\ highScore b = highScore a ->
             highScore a <= highScore b
             /\ (isRestart i = false ->
                 exists n, 0 <= n /\ score b = score a + 100 * n)) as Hsame.
  { intros a b [H1 H2]. split; [lia|]. intros _. exists 0. split; lia. }
  unfold handleInput.
  destruct (isMovement s i).
  { destruct i as [rng|code|target|rng code];
      try (intros [= <-]; apply Hsame; split; reflexivity).
    case_bind. intros [= <-].
    match goal with H : updateState _ _ = Ok _ |- _ =>
      apply updateState_scores in H end.
    apply Hsame. assumption. }
  destruct (isPause i); [intros [= <-]; apply Hsame; split; reflexivity|].
  destruct (isRestart i) eqn:Hre.
  { case_bind. intros [= <-]. cbn [highScore withHighScore].
    split; [lia|discriminate]. }
  assert (forall a rng, tick a rng = Ok s' ->
            score a = score s /\ highScore a = highScore s ->
            highScore s <= highScore s'
            /\ (false = false ->
                exists n, 0 <= n /\ score s' = score s + 100 * n)) as Htick.
  { intros a rng Ht [H1 H2]. apply tick_scores_grow in Ht.
    rewrite H1, H2 in Ht. destruct Ht as [Hh Hn]. split; [exact Hh|].
    intros _. exact Hn. }
  destruct (isHardDrop s i).
  { destruct i as [rng|code|target|rng code];
      try (intros [= <-]; apply Hsame; split; reflexivity).
    unfold hardDrop, dropTetromino. case_bind.
    match goal with H : dropOneStepRecursive _ _ = Ok _ |- _ =>
      apply dropOneStepRecursive_scores in H end.
    intros Ht. apply (Htick _ _ Ht). assumption. }
  destruct (isHold s i).
  { destruct i as [rng|code|target|rng code];
      try (intros [= <-]; apply Hsame; split; reflexivity).
    case_bind. intros [= <-].
    match goal with H : holdState _ _ = Ok _ |- _ =>
      apply holdState_scores in H end.
    apply Hsame. assumption. }
  destruct (gameEnd s || gamePause s);
    [intros [= <-]; apply Hsame; split; reflexivity|].
  intros Ht. apply (Htick _ _ Ht). split; reflexivity.
Qed.

Lemma handleInput_scores_grow_witness :
  highScore (startOf sampleSeed) <= highScore afterDrop
  /\ (isRestart (InPair sampleSeed "Space") = false ->
      exists n, 0 <= n
                /\ score afterDrop = score (startOf sampleSeed) + 100 * n).
Proof.
  apply (handleInput_scores_grow sampleSeed 30 (startOf sampleSeed) afterDrop
           (InPair sampleSeed "Space")).
  - change (score (startOf sampleSeed)) with 0.
    unfold exactInt, EXACT_RANGE. lia.
  - vm_compute. reflexivity.
Defined.

(** ** Collision, bounds and moves *)

Lemma someFrom_true_at {A : Type} (f : A -> Z -> bool) (l : list A) :
  forall i, someFrom f i l = true ->
            exists n a, nth_error l n = Some a /\ f a (i + Z.of_nat n) = true.
Proof.
  induction l as [|b l IH]; intros i H; [discriminate H|].
  cbn [someFrom] in H. destruct (f b i) eqn:E.
  - exists 0%nat, b. split; [reflexivity|].
    replace (i + Z.of_nat 0) with i by lia. exact E.
  - destruct (IH (i + 1) H) as [n [a [Hn Ha]]].
    exists (S n), a. split; [exact Hn|].
    replace (i + Z.of_nat (S n)) with (i + 1 + Z.of_nat n) by lia. exact Ha.
Qed.

Lemma isOutOfBounds_collides (x0 y0 : value) (sh g : Matrix) :
  fullHeight g -> isOutOfBounds x0 y0 sh = true ->
  isCollision x0 y0 sh g = Ok true.
Proof.
  intros Hg Hoob.
  destruct (isCollision_total x0 y0 sh g Hg) as [c Hc].
  destruct c; [exact Hc|exfalso].
  unfold isOutOfBounds, some in Hoob.
  destruct (someFrom_true_at _ _ 0 Hoob) as [r [row [Hr Hrow]]].
  cbn beta in Hrow.
  destruct (someFrom_true_at _ _ 0 Hrow) as [c [v [Hv Hcell]]].
  cbn beta zeta in Hcell.
  unfold isCollision, someM in Hc.
  pose proof (someFromM_false_at _ _ 0 Hc r row Hr) as Hrow'. cbn beta in Hrow'.
  pose proof (someFromM_false_at _ _ 0 Hrow' c v Hv) as Hcell'.
  cbn beta zeta in Hcell'.
  destruct (is1 v); [|discriminate Hcell].
  destruct (vge (vadd y0 (Num (0 + Z.of_nat r))) (Num GRID_HEIGHT));
    [discriminate Hcell'|].
  rewrite orb_false_r in Hcell. cbn [orb] in Hcell'.
  rewrite Hcell in Hcell'. discriminate Hcell'.
Qed.

(** On a grid of full height the bounds test adds nothing to the collision
    test: a placement that is out of bounds collides, so a piece is settled
    exactly when it collides one row down, and a move is rejected exactly
    when the moved piece collides. *)
Theorem isOutOfBounds_subsumed (s : State) (dx dy : Z) :
  fullHeight (grid s) ->
  (forall px py sh, isOutOfBounds px py sh = true ->
                    isCollision px py sh (grid s) = Ok true)
  /\ isSettled (currentTetromino s) (grid s) =
       isCollision (x (currentTetromino s))
                   (vadd (y (currentTetromino s)) (Num 1))
                   (shape (currentTetromino s)) (grid s)
  /\ moveTetromino s dx dy =
       (c <- isCollision (vadd (x (currentTetromino s)) (Num dx))
                         (vadd (y (currentTetromino s)) (Num dy))
                         (shape (currentTetromino s)) (grid s) ;;
        if c then Ok s
        else Ok (withCurrent s
                   (withXY (currentTetromino s)
                           (vadd (x (currentTetromino s)) (Num dx))
                           (vadd (y (currentTetromino s)) (Num dy))))).
Proof.
  intros Hg.
  split; [intros px py sh; apply isOutOfBounds_collides, Hg|].
  split.
  - unfold isSettled.
    destruct (isCollision _ _ _ _) as [c| |] eqn:Hc; cbn [bind]; try reflexivity.
    destruct c; [reflexivity|].
    destruct (isOutOfBounds _ _ _) eqn:Hoob; [|reflexivity].
    rewrite (isOutOfBounds_collides _ _ _ _ Hg Hoob) in Hc. discriminate Hc.
  - unfold moveTetromino. cbn [withXY x y shape].
    destruct (isCollision _ _ _ _) as [c| |] eqn:Hc; cbn [bind]; try reflexivity.
    destruct c; [reflexivity|]. cbn [orb].
    destruct (isOutOfBounds _ _ _) eqn:Hoob; [|reflexivity].
    rewrite (isOutOfBounds_collides _ _ _ _ Hg Hoob) in Hc. discriminate Hc.
Qed.

Lemma isOutOfBounds_subsumed_witness :
  isSettled (currentTetromino restingO) (grid restingO) =
    isCollision (x (currentTetromino restingO))
                (vadd (y (currentTetromino restingO)) (Num 1))
                (shape (currentTetromino restingO)) (grid restingO).
Proof.
  apply (isOutOfBounds_subsumed restingO 0 1). reflexivity.
Defined.

(** A move that is applied is undone by the opposite move: from a legal
    placement at exact integer coordinates, if the placement shifted by the
    exact integers ([dx], [dy]) is legal too, moving by ([dx], [dy]) and
    then by ([-dx], [-dy]) gives the state back.  (Beyond 2^53 the sums of
    the code round, and the way back need not end where the move began.) *)
Theorem moveTetromino_undo (s : State) (x0 y0 dx dy : Z) :
  exactInt x0 -> exactInt y0 -> exactInt dx -> exactInt dy ->
  x (currentTetromino s) = Num x0 -> y (currentTetromino s) = Num y0 ->
  isLegal (currentTetromino s) (grid s) = Ok true ->
  isLegal (withXY (currentTetromino s) (Num (x0 + dx)) (Num (y0 + dy))) (grid s)
  = Ok true ->
  exists s1,
    moveTetromino s dx dy = Ok s1
    /\ currentTetromino s1 =
         withXY (currentTetromino s) (Num (x0 + dx)) (Num (y0 + dy))
    /\ moveTetromino s1 (- dx) (- dy) = Ok s.
Proof.
  intros _ _ _ _ Hx Hy Hl Hl'.
  apply isLegal_true_iff in Hl. destruct Hl as [Hc Ho].
  apply isLegal_true_iff in Hl'. cbn [withXY x y shape] in Hl'.
  destruct Hl' as [Hc' Ho'].
  eexists. split; [|split].
  - unfold moveTetromino. rewrite Hx, Hy. cbn [vadd withXY x y shape].
    rewrite Hc', Ho'. cbn [bind orb]. reflexivity.
  - reflexivity.
  - unfold moveTetromino.
    cbn [currentTetromino withCurrent withXY x y shape grid vadd].
    replace (x0 + dx + - dx) with x0 by lia.
    replace (y0 + dy + - dy) with y0 by lia.
    rewrite Hx, Hy in Hc, Ho. rewrite Hc, Ho. cbn [bind orb].
    f_equal. destruct s as [e p r g [k o sh col px py] n h l sc hs].
    cbn in *. subst. reflexivity.
Qed.

Lemma moveTetromino_undo_witness :
  exists s1,
    moveTetromino fallingI (-1) 0 = Ok s1
    /\ currentTetromino s1 =
         withXY (currentTetromino fallingI) (Num (3 + -1)) (Num (1 + 0))
    /\ moveTetromino s1 (- -1) (- 0) = Ok fallingI.
Proof.
  apply (moveTetromino_undo fallingI 3 1 (-1) 0);
    try reflexivity; unfold exactInt, EXACT_RANGE; lia.
Defined.

(** ** Dropping *)

Lemma moveTetromino_grid (s s' : State) (dx dy : Z) :
  moveTetromino s dx dy = Ok s' -> grid s' = grid s.
Proof.
  unfold moveTetromino. case_bind.
  destruct (_ || _); intros [= <-]; reflexivity.
Qed.

Lemma dropOneStepRecursive_settled (fuel : nat) :
  forall s s', dropOneStepRecursive fuel s = Ok s' ->
               isSettled (currentTetromino s') (grid s') = Ok true
               /\ grid s' = grid s.
Proof.
  induction fuel as [|fuel IH]; intros s s'; cbn [dropOneStepRecursive];
    [discriminate|].
  destruct (isSettled (currentTetromino s) (grid s)) as [b| |] eqn:Hs;
    cbn [bind]; try discriminate.
  destruct b; [intros [= <-]; split; [exact Hs|reflexivity]|].
  destruct (moveTetromino s 0 1) as [s1| |] eqn:Hm; cbn [bind]; try discriminate.
  intros H. destruct (IH _ _ H) as [H1 H2]. split; [exact H1|].
  rewrite H2. apply (moveTetromino_grid _ _ _ _ Hm).
Qed.

(** Whenever [dropTetromino] returns, the piece it returns is settled and
    the grid, the scores and the queue are untouched; dropping the result
    again returns it at once, so a drop after a drop changes nothing. *)
Theorem dropTetromino_idempotent (fuel : nat) (s s' : State) :
  dropTetromino fuel s = Ok s' ->
  isSettled (currentTetromino s') (grid s') = Ok true
  /\ grid s' = grid s
  /\ score s' = score s /\ highScore s' = highScore s
  /\ forall fuel', dropTetromino (S fuel') s' = Ok s'.
Proof.
  unfold dropTetromino. intros H.
  destruct (dropOneStepRecursive_settled fuel s s' H) as [Hs Hg].
  destruct (dropOneStepRecursive_scores fuel s s' H) as [H1 H2].
  repeat split; try assumption.
  intros fuel'. cbn [dropOneStepRecursive]. rewrite Hs. reflexivity.
Qed.

Lemma dropTetromino_idempotent_witness :
  exists s', dropTetromino 30 fallingI = Ok s'
             /\ y (currentTetromino s') = Num 18
             /\ dropTetromino 1 s' = Ok s'.
Proof.
  eexists. split; [vm_compute; reflexivity|]. split; [reflexivity|].
  apply (dropTetromino_idempotent 30 fallingI). vm_compute. reflexivity.
Defined.

(** ** A tick on a piece that can still fall *)

(** When the active piece, at exact integer coordinates, is not settled, a
    tick of a game that is neither paused nor ended moves the piece down by
    one row and clears the just-restarted flag; the random number is not
    used and grid, queue and scores stay.  When the game is paused or ended
    the tick returns the state as it is.  (Beyond 2^53 the sum [y + 1] of
    the code rounds, and the piece need not move.) *)
Theorem tick_falls (s : State) (rng : float) (x0 y0 : Z) :
  exactInt x0 -> exactInt y0 ->
  x (currentTetromino s) = Num x0 -> y (currentTetromino s) = Num y0 ->
  isSettled (currentTetromino s) (grid s) = Ok false ->
  tick s rng =
    Ok (if gamePause s || gameEnd s then s
        else withGameRestart
               (withCurrent s (withXY (currentTetromino s) (Num x0) (Num (y0 + 1))))
               false).
Proof.
  intros _ _ Hx Hy Hs. unfold tick, isGameEnd. rewrite Hs. cbn [bind andb].
  destruct (gamePause s || gameEnd s); [reflexivity|].
  rewrite (moveTetromino_down s x0 y0 Hx Hy Hs). reflexivity.
Qed.

Lemma tick_falls_witness :
  tick fallingI sampleSeed =
    Ok (withGameRestart
          (withCurrent fallingI (withXY (currentTetromino fallingI) (Num 3) (Num 2)))
          false).
Proof.
  apply (tick_falls fallingI sampleSeed 3 1);
    try reflexivity; unfold exactInt, EXACT_RANGE; lia.
Defined.

(** ** Rows cleared by one settle *)

Lemma mapFrom_same {A : Type} (f : A -> Z -> A) (l : list A) :
  forall i, (forall n a, nth_error l n = Some a -> f a (i + Z.of_nat n) = a) ->
            mapFrom f i l = l.
Proof.
  induction l as [|a l IH]; intros i H; [reflexivity|].
  cbn [mapFrom]. f_equal.
  - specialize (H 0%nat a eq_refl). replace (i + Z.of_nat 0) with i in H by lia.
    exact H.
  - apply IH. intros n b Hn. specialize (H (S n) b Hn).
    replace (i + 1 + Z.of_nat n) with (i + Z.of_nat (S n)) by lia. exact H.
Qed.

Lemma filter_mapFrom_window {A B : Type} (f : A -> Z -> B) (p : B -> bool)
      (lo hi : Z) (l : list A) :
  forall i,
    (forall n a, nth_error l n = Some a ->
                 i + Z.of_nat n < lo \/ hi <= i + Z.of_nat n ->
                 p (f a (i + Z.of_nat n)) = false) ->
    Z.of_nat (List.length (filter p (mapFrom f i l))) <= Z.max 0 (hi - Z.max lo i).
Proof.
  induction l as [|a l IH]; intros i H; cbn [mapFrom filter List.length]; [lia|].
  assert (Z.of_nat (List.length (filter p (mapFrom f (i + 1) l)))
          <= Z.max 0 (hi - Z.max lo (i + 1))) as Htail.
  { apply IH. intros n b Hn Hout.
    replace (i + 1 + Z.of_nat n) with (i + Z.of_nat (S n)) in * by lia.
    apply (H (S n) b Hn Hout). }
  destruct (p (f a i)) eqn:Hp; cbn [List.length]; [|lia].
  destruct (Z_lt_le_dec i lo) as [Hlo|Hlo].
  - specialize (H 0%nat a eq_refl ltac:(lia)).
    replace (i + Z.of_nat 0) with i in H by lia. congruence.
  - destruct (Z_le_gt_dec hi i) as [Hhi|Hhi].
    + specialize (H 0%nat a eq_refl ltac:(lia)).
      replace (i + Z.of_nat 0) with i in H by lia. congruence.
    + lia.
Qed.

Lemma validPiece_height (t : Tetromino) :
  validPiece t -> Z.of_nat (List.length (shape t)) <= 4.
Proof.
  intros H. piece_cases t H; cbn; lia.
Qed.

Lemma updateGrid_full_rows (s : State) (merged : Matrix) :
  wellFormed s ->
  updateGrid (grid s) (currentTetromino s) = Ok merged ->
  Z.of_nat (List.length (filter isFull merged)) <= 4.
Proof.
  intros ((_ & Hrows) & Hv & _) Hm.
  pose proof (validPiece_height _ Hv) as Hh.
  destruct Hv as (_ & _ & _ & _ & (x0 & y0 & Hx & Hy)).
  unfold updateGrid in Hm. rewrite Hx, Hy in Hm.
  destruct (shape (currentTetromino s)) as [|row0 rest] eqn:Es;
    [discriminate Hm|].
  rewrite <- Es in *. injection Hm as <-. unfold mapi.
  set (L := Z.of_nat (List.length (shape (currentTetromino s)))) in *.
  etransitivity.
  - apply (filter_mapFrom_window _ isFull y0 (y0 + L)).
    intros n row Hn Hout. rewrite Forall_forall in Hrows.
    destruct (Hrows row (nth_error_In _ _ Hn)) as (_ & _ & Hnf).
    rewrite mapFrom_same; [exact Hnf|].
    intros m c _. cbn [vge vlt vadd].
    destruct (Z.leb_spec y0 (0 + Z.of_nat n)); [|reflexivity].
    destruct (Z.ltb_spec (0 + Z.of_nat n) (y0 + L)); [lia|reflexivity].
  - lia.
Qed.

(** In a reachable state one tick clears at most four rows: the score grows
    by 0, 100, 200, 300 or 400. *)
Theorem tick_gain_bounded (seed : float) (s s' : State) (rng : float) :
  reachable seed s ->
  tick s rng = Ok s' ->
  exists n, 0 <= n <= 4 /\ score s' = score s + 100 * n.
Proof.
  intros Hr. pose proof (reachable_wellFormed seed s Hr) as Hwf.
  unfold tick. case_bind.
  match goal with |- context [if ?b then _ else _] => destruct b end.
  { intros [= <-]. exists 0. split; [lia|cbn; lia]. }
  case_bind.
  match goal with |- context [if ?b then _ else _] => destruct b end.
  - case_bind.
    match goal with H : updateGrid _ _ = Ok ?m |- _ =>
      pose proof (updateGrid_full_rows s m Hwf H) as Hfull;
      rewrite (clearCompletedRows_rows m) end.
    case_bind. intros [= <-]. cbn [score].
    eexists. split; [|rewrite Z.mul_comm; reflexivity]. lia.
  - destruct (gamePause s || gameEnd s).
    { intros [= <-]. exists 0. split; lia. }
    case_bind.
    match goal with H : moveTetromino _ _ _ = Ok _ |- _ =>
      apply moveTetromino_scores in H; destruct H as [H1 H2] end.
    intros [= <-]. cbn [score withGameRestart]. exists 0. split; lia.
Qed.

Lemma tick_gain_bounded_witness :
  exists s', tick afterDrop sampleSeed = Ok s'
             /\ exists n, 0 <= n <= 4 /\ score s' = score afterDrop + 100 * n.
Proof.
  exists (withGameRestart
            (withCurrent afterDrop
               (withXY (currentTetromino afterDrop) (Num 4) (Num (-1))))
            false).
  split; [vm_compute; reflexivity|].
  apply (tick_gain_bounded sampleSeed afterDrop _ sampleSeed).
  - apply (reach_step sampleSeed (startOf sampleSeed) afterDrop 30%nat
                      (InPair sampleSeed "Space")).
    + apply reach_init. vm_compute. reflexivity.
    + vm_compute. reflexivity.
  - vm_compute. reflexivity.
Defined.

(** ** Drawing and resetting pieces *)

(** [getRandomTetromino] returns the spawn piece of the kind at index
    [floor (rng * 7)] of I, J, L, O, S, T, Z when that index is among 0..6,
    and throws for every other number: a negative one, 1 or more, [NaN] or
    an infinity. *)
Theorem getRandomTetromino_spec (rng : float) :
  getRandomTetromino rng =
    match floor (PrimFloat.mul rng 7%float) with
    | Some i =>
        if (0 <=? i) && (i <? 7)
        then Ok (spawned (nth (Z.to_nat i) ["I"; "J"; "L"; "O"; "S"; "T"; "Z"] ""))
        else TypeError
    | None => TypeError
    end.
Proof.
  unfold getRandomTetromino.
  change (PrimFloat.of_uint63
            (Uint63.of_Z (Z.of_nat (List.length (keys TetrominoShapes)))))
    with 7%float.
  destruct (floor (PrimFloat.mul rng 7%float)) as [i|]; [|reflexivity].
  unfold lookup. destruct (Z.ltb_spec i 0) as [Hneg|Hpos].
  - destruct (Z.leb_spec 0 i); [lia|]. reflexivity.
  - destruct (Z.leb_spec 0 i); [|lia]. cbn [andb].
    cbn [keys TetrominoShapes map fst].
    destruct (Z.to_nat i) as [|[|[|[|[|[|[|n]]]]]]] eqn:E;
      try (destruct (Z.ltb_spec i 7); [reflexivity|lia]).
    destruct (Z.ltb_spec i 7); [lia|]. destruct n; reflexivity.
Qed.

(** [resetPosition] throws exactly when the key of the piece is not one of
    the seven kinds; otherwise it returns the spawn placement of that kind
    with the key and colour of the piece, whatever its orientation, shape
    and position were. *)
Theorem resetPosition_spec (t : Tetromino) :
  resetPosition t =
    if isKind (key t)
    then Ok (mkTetromino (key t) INITIAL_ORIENTATION (shape (spawned (key t)))
                         (colour t) (x (spawned (key t))) (Num (-2)))
    else TypeError.
Proof.
  destruct t as [k o sh col px py]. unfold resetPosition, isKind.
  cbn [key colour keys TetrominoShapes map fst existsb prop].
  repeat match goal with
         | |- context [String.eqb k ?c] =>
             destruct (String.eqb_spec k c) as [->|Hne];
             [reflexivity
             |rewrite (proj2 (String.eqb_neq c k) (not_eq_sym Hne)); clear Hne;
              cbn [orb]]
         end.
  reflexivity.
Qed.

(** ** The tick interval *)

(** The tick interval never drops below [MINIMUM_TICKRATE] and shrinks as
    the level grows; in a reachable state it is at most [TICK_RATE_MS], and
    it is at its minimum exactly when the score has reached 10000. *)
Theorem tickRate_in_play (seed : float) (s : State) :
  reachable seed s ->
  Constants.MINIMUM_TICKRATE <= tickRate (level s) <= Constants.TICK_RATE_MS
  /\ (tickRate (level s) = Constants.MINIMUM_TICKRATE <-> 10000 <= score s)
  /\ (forall a b, a <= b -> tickRate b <= tickRate a)
  /\ (forall a, Constants.MINIMUM_TICKRATE <= tickRate a).
Proof.
  intros Hr.
  destruct (reachable_wellFormed seed s Hr) as (_ & _ & _ & _ & _ & Hl & (n & Hn & Hs)).
  unfold tickRate, Constants.MINIMUM_TICKRATE, Constants.TICK_RATE_MS,
    Constants.TICKRATE_INCREMENT.
  assert (0 <= level s) as Hl0 by (rewrite Hl; apply Z.div_pos; lia).
  assert (10 <= level s <-> 10000 <= score s) as Hten.
  { rewrite Hl. split; intros H.
    - pose proof (Z.mul_div_le (score s) 1000 ltac:(lia)). lia.
    - apply Z.div_le_lower_bound; lia. }
  split; [lia|]. split; [|split; intros; lia].
  rewrite <- Hten. lia.
Qed.

Lemma tickRate_in_play_witness :
  Constants.MINIMUM_TICKRATE <= tickRate (level afterDrop) <= Constants.TICK_RATE_MS
  /\ (tickRate (level afterDrop) = Constants.MINIMUM_TICKRATE
      <-> 10000 <= score afterDrop)
  /\ (forall a b, a <= b -> tickRate b <= tickRate a)
  /\ (forall a, Constants.MINIMUM_TICKRATE <= tickRate a).
Proof.
  apply (tickRate_in_play sampleSeed afterDrop).
  apply (reach_step sampleSeed (startOf sampleSeed) afterDrop 30%nat
                    (InPair sampleSeed "Space")).
  - apply reach_init. vm_compute. reflexivity.
  - vm_compute. reflexivity.
Defined.

(** ** The stream of random numbers *)

Lemma scan_app {A B : Type} (f : B -> A -> B) (l1 l2 : list A) :
  forall acc, scan f acc (l1 ++ l2) = scan f acc l1 ++ scan f (fold_left f l1 acc) l2.
Proof.
  induction l1 as [|a l1 IH]; intros acc; [reflexivity|].
  cbn [app scan fold_left]. f_equal. apply IH.
Qed.

Lemma fold_left_hash {T : Type} (source : list T) :
  forall seed,
    fold_left (fun prevSeed (_ : T) => RNG.hash prevSeed) source seed
    = Nat.iter (List.length source) RNG.hash seed.
Proof.
  induction source as [|a source IH]; intros seed; [reflexivity|].
  cbn [fold_left List.length]. rewrite IH. symmetry. apply Nat.iter_succ_r.
Qed.

(** The stream of random numbers draws one number per value of its source,
    whatever those values are, and can be resumed: the numbers drawn for a
    source continued by another are those drawn for the first, followed by
    those drawn for the second from the seed hashed once per value of the
    first. *)
Theorem createRngStream_resumes {T : Type} (source1 source2 : list T) (seed : float) :
  createRngStreamFromSource (source1 ++ source2) seed =
    createRngStreamFromSource source1 seed
    ++ createRngStreamFromSource source2
         (Nat.iter (List.length source1) RNG.hash seed)
  /\ List.length (createRngStreamFromSource source1 seed) = List.length source1
  /\ createRngStreamFromSource source1 seed =
       createRngStreamFromSource (repeat tt (List.length source1)) seed.
Proof.
  unfold createRngStreamFromSource. split; [|split].
  - rewrite scan_app, map_app, fold_left_hash. reflexivity.
  - rewrite length_map. revert seed.
    induction source1 as [|a l IH]; intros seed; [reflexivity|].
    cbn [scan List.length]. rewrite IH. reflexivity.
  - f_equal. revert seed.
    induction source1 as [|a l IH]; intros seed; [reflexivity|].
    cbn [scan List.length repeat]. f_equal. apply IH.
Qed.

(** ** The grid lines *)







(** ** Rendering *)

Ltac view_constants :=
  change Block.WIDTH with 20 in *; change Block.HEIGHT with 20 in *;
  change Viewport.CANVAS_WIDTH with 200 in *;
  change Viewport.CANVAS_HEIGHT with 400 in *.

Lemma Num_inj (a b : Z) : Num a = Num b -> a = b.
Proof. intros [= ->]. reflexivity. Qed.

Lemma forEachFrom_collect {A B : Type} (f : list B -> A -> Z -> list B)
      (g : A -> Z -> list B) (l : list A) :
  (forall el a i, f el a i = el ++ g a i) ->
  forall i st, forEachFrom f i l st = st ++ concat (mapFrom g i l).
Proof.
  intros H. induction l as [|a l IH]; intros i st; cbn [forEachFrom mapFrom concat].
  - rewrite app_nil_r. reflexivity.
  - rewrite IH, H, <- app_assoc. reflexivity.
Qed.

Lemma forEach_cells (mk : Z -> Z -> Rect) (m : Matrix) (element : list Rect) :
  forEach (fun el row y0 =>
    forEach (fun el' cell x0 =>
      if is1 cell then el' ++ [mk x0 y0] else el') row el) m element
  = element ++ cellRects mk m.
Proof.
  unfold forEach, cellRects. apply forEachFrom_collect.
  intros el row y0. apply forEachFrom_collect.
  intros el' c x0. destruct (is1 c); [reflexivity|].
  rewrite app_nil_r. reflexivity.
Qed.

Lemma In_concat_mapFrom {A B : Type} (g : A -> Z -> list B) (l : list A) (b : B) :
  forall i, In b (concat (mapFrom g i l)) ->
            exists n a, nth_error l n = Some a /\ In b (g a (i + Z.of_nat n)).
Proof.
  induction l as [|a l IH]; intros i H; [destruct H|].
  cbn [mapFrom concat] in H. apply in_app_or in H. destruct H as [H|H].
  - exists 0%nat, a. split; [reflexivity|].
    replace (i + Z.of_nat 0) with i by lia. exact H.
  - destruct (IH (i + 1) H) as [n [c [Hn Hc]]].
    exists (S n), c. split; [exact Hn|].
    replace (i + Z.of_nat (S n)) with (i + 1 + Z.of_nat n) by lia. exact Hc.
Qed.

Lemma In_cellRects (mk : Z -> Z -> Rect) (m : Matrix) (r : Rect) :
  In r (cellRects mk m) ->
  exists n row k v,
    nth_error m n = Some row /\ nth_error row k = Some v /\ is1 v = true
    /\ r = mk (Z.of_nat k) (Z.of_nat n).
Proof.
  unfold cellRects. intros H.
  destruct (In_concat_mapFrom _ _ _ 0 H) as [n [row [Hn Hrow]]].
  destruct (In_concat_mapFrom _ _ _ 0 Hrow) as [k [v [Hk Hv]]].
  exists n, row, k, v. split; [exact Hn|]. split; [exact Hk|].
  destruct (is1 v); [|destruct Hv].
  split; [reflexivity|]. destruct Hv as [<-|[]].
  replace (0 + Z.of_nat k) with (Z.of_nat k) by lia.
  replace (0 + Z.of_nat n) with (Z.of_nat n) by lia. reflexivity.
Qed.

Lemma renderCurrentTetromino_cells (s : State) (element : list Rect) :
  renderCurrentTetromino s element =
    element
    ++ cellRects (fun x0 y0 =>
                    mkRect Block.HEIGHT Block.WIDTH
                           (vmul (Num Block.WIDTH)
                                 (vadd (x (currentTetromino s)) (Num x0)))
                           (vmul (Num Block.HEIGHT)
                                 (vadd (y (currentTetromino s)) (Num y0)))
                           (colour (currentTetromino s)))
                 (shape (currentTetromino s)).
Proof.
  unfold renderCurrentTetromino, createAndAppendRect. apply forEach_cells.
Qed.

Lemma renderExistingTetrominoes_cells (s : State) (element : list Rect) :
  renderExistingTetrominoes s element =
    element
    ++ cellRects (fun x0 y0 =>
                    mkRect Block.HEIGHT Block.WIDTH
                           (vmul (Num Block.WIDTH) (Num x0))
                           (vmul (Num Block.HEIGHT) (Num y0)) "gray")
                 (grid s).
Proof.
  unfold renderExistingTetrominoes, createAndAppendRect. apply forEach_cells.
Qed.

Lemma validPiece_four_rects (s : State) :
  validPiece (currentTetromino s) ->
  List.length (renderCurrentTetromino s []) = 4%nat.
Proof.
  destruct s as [e p r g c n h l sc hs]. cbn [currentTetromino].
  intros H. piece_cases c H; reflexivity.
Qed.

(** In every reachable state the active piece is drawn as four rects, each
    inside the columns of the canvas and not below it, and none of them at
    the place of a rect drawn for a settled block; the settled blocks are
    drawn inside the canvas. *)
Theorem render_piece_clear_of_blocks (seed : float) (s : State) :
  reachable seed s ->
  List.length (renderCurrentTetromino s []) = 4%nat
  /\ (forall r, In r (renderCurrentTetromino s []) ->
        (exists px py,
            rectX r = Num px /\ rectY r = Num py
            /\ 0 <= px /\ px + rectWidth r <= Viewport.CANVAS_WIDTH
            /\ py + rectHeight r <= Viewport.CANVAS_HEIGHT)
        /\ forall r', In r' (renderExistingTetrominoes s []) ->
                      ~ (rectX r' = rectX r /\ rectY r' = rectY r))
  /\ Forall (insideBox Viewport.CANVAS_WIDTH Viewport.CANVAS_HEIGHT)
            (renderExistingTetrominoes s []).
Proof.
  intros Hr.
  destruct (reachable_wellFormed seed s Hr) as ((Hh & Hrows) & Hv & Hl & _).
  split; [apply validPiece_four_rects, Hv|].
  apply isLegal_true_iff in Hl. destruct Hl as [Hcol _].
  destruct Hv as (_ & _ & _ & _ & (x0 & y0 & Hx & Hy)).
  rewrite Hx, Hy in Hcol.
  rewrite renderCurrentTetromino_cells, renderExistingTetrominoes_cells.
  cbn [app]. rewrite Hx, Hy. split.
  - intros r Hin.
    destruct (In_cellRects _ _ _ Hin) as (n & row & k & v & Hn & Hk & Hv1 & ->).
    destruct (isCollision_false_cell x0 y0 _ _ Hcol n row k v Hn Hk Hv1)
      as (Hxb & Hyb & Hg).
    cbn [rectX rectY rectWidth rectHeight vadd vmul].
    unfold GRID_WIDTH, GRID_HEIGHT in *. split.
    + eexists. eexists. split; [reflexivity|]. split; [reflexivity|].
      view_constants. lia.
    + intros r' Hin' [Ex Ey].
      destruct (In_cellRects _ _ _ Hin')
        as (n' & row' & k' & v' & Hn' & Hk' & Hv' & ->).
      unfold vmul in Ex, Ey. cbn [rectX rectY vadd] in Ex, Ey.
      apply Num_inj in Ex. apply Num_inj in Ey. view_constants.
      assert (y0 + Z.of_nat n = Z.of_nat n') as En by lia.
      assert (x0 + Z.of_nat k = Z.of_nat k') as Ek by lia.
      specialize (Hg ltac:(lia)). rewrite En, Ek in Hg.
      unfold gridIs1 in Hg. rewrite lookup_nat, Hn' in Hg.
      unfold cellAt in Hg. rewrite lookup_nat, Hk' in Hg. congruence.
  - apply Forall_forall. intros r Hin.
    destruct (In_cellRects _ _ _ Hin) as (n & row & k & v & Hn & Hk & _ & ->).
    rewrite Forall_forall in Hrows.
    destruct (Hrows row (nth_error_In _ _ Hn)) as (Hlen & _).
    assert (n < List.length (grid s))%nat as Hn1
      by (apply nth_error_Some; congruence).
    assert (k < List.length row)%nat as Hk1
      by (apply nth_error_Some; congruence).
    unfold fullHeight, GRID_HEIGHT, GRID_WIDTH in *.
    unfold insideBox. cbn [rectX rectY rectWidth rectHeight vmul].
    eexists. eexists. split; [reflexivity|]. split; [reflexivity|].
    view_constants. lia.
Qed.

Lemma render_piece_clear_of_blocks_witness :
  List.length (renderCurrentTetromino afterDrop []) = 4%nat
  /\ Forall (insideBox Viewport.CANVAS_WIDTH Viewport.CANVAS_HEIGHT)
            (renderExistingTetrominoes afterDrop []).
Proof.
  destruct (render_piece_clear_of_blocks sampleSeed afterDrop) as (H4 & _ & Hin).
  - apply (reach_step sampleSeed (startOf sampleSeed) afterDrop 30%nat
                      (InPair sampleSeed "Space")).
    + apply reach_init. vm_compute. reflexivity.
    + vm_compute. reflexivity.
  - split; assumption.
Defined.

Lemma spawned_preview_inside (k : string) :
  isKind k = true ->
  Forall (insideBox Viewport.PREVIEW_WIDTH Viewport.PREVIEW_HEIGHT)
         (renderPreview (spawned k) []).
Proof.
  intros Hk. kind_cases k Hk;
    match goal with
    | |- Forall _ ?l => let l' := eval vm_compute in l in change l with l'
    end;
    repeat (apply Forall_cons;
            [unfold insideBox; cbn [rectX rectY rectWidth rectHeight];
             eexists; eexists; (split; [reflexivity|]); (split; [reflexivity|]);
             change Viewport.PREVIEW_WIDTH with 160;
             change Viewport.PREVIEW_HEIGHT with 80; lia|]);
    apply Forall_nil.
Qed.

(** In every reachable state the previews of the next piece and of the held
    piece are drawn as rects that lie inside their 160 by 80 boxes. *)
Theorem render_previews_inside (seed : float) (s : State) :
  reachable seed s ->
  Forall (insideBox Viewport.PREVIEW_WIDTH Viewport.PREVIEW_HEIGHT)
         (renderNextTetromino s [])
  /\ Forall (insideBox Viewport.HOLD_WIDTH Viewport.HOLD_HEIGHT)
            (renderHoldTetromino s []).
Proof.
  intros Hr.
  destruct (reachable_wellFormed seed s Hr) as (_ & _ & _ & Hn & Hh & _).
  unfold renderNextTetromino, renderHoldTetromino. split.
  - destruct Hn as [k [Hk ->]]. apply spawned_preview_inside, Hk.
  - destruct (holdTetromino s) as [h|]; [|constructor].
    destruct (Hh h eq_refl) as [k [Hk ->]]. apply spawned_preview_inside, Hk.
Qed.

Lemma render_previews_inside_witness :
  Forall (insideBox Viewport.PREVIEW_WIDTH Viewport.PREVIEW_HEIGHT)
         (renderNextTetromino afterDrop [])
  /\ Forall (insideBox Viewport.HOLD_WIDTH Viewport.HOLD_HEIGHT)
            (renderHoldTetromino afterDrop []).
Proof.
  apply (render_previews_inside sampleSeed afterDrop).
  apply (reach_step sampleSeed (startOf sampleSeed) afterDrop 30%nat
                    (InPair sampleSeed "Space")).
  - apply reach_init. vm_compute. reflexivity.
  - vm_compute. reflexivity.
Defined.

(** ** Rotation has period four *)

Lemma validPiece_turned (t : Tetromino) :
  validPiece t ->
  (exists rsh, rotateMatrix (shape t) = Ok rsh /\ rotated t rsh = turned t 1)
  /\ turned (turned t 1) 1 = turned t 2
  /\ turned (turned t 2) 1 = turned t 3
  /\ turned (turned t 3) 1 = t
  /\ validPiece (turned t 1) /\ validPiece (turned t 2) /\ validPiece (turned t 3).
Proof.
  intros H.
  assert (forall k o sh col (x0 y0 : Z),
             isKind k = true -> 0 <= o < 4 -> shapeOf k o = Ok sh ->
             prop TetrominoColours k = Some col ->
             validPiece (mkTetromino k o sh col (Num x0) (Num y0))) as Hmk.
  { intros k o sh col x0 y0 Hk Ho Hs Hc.
    split; [exact Hk|]. split; [exact Ho|]. split; [exact Hs|].
    split; [exact Hc|]. exists x0, y0. split; reflexivity. }
  piece_cases t H;
    (split; [eexists; split; reflexivity|]);
    (split; [reflexivity|]); (split; [reflexivity|]); (split; [reflexivity|]);
    (split; [|split]); apply Hmk; try reflexivity; cbn; lia.
Qed.

Lemma rotateTetromino_turn (s : State) :
  validPiece (currentTetromino s) ->
  isLegal (turned (currentTetromino s) 1) (grid s) = Ok true ->
  rotateTetromino s = Ok (withCurrent s (turned (currentTetromino s) 1)).
Proof.
  intros Hv Hl.
  destruct (validPiece_turned _ Hv) as ([rsh [Hr Ht]] & _).
  rewrite (rotateTetromino_unfold s rsh Hr), Ht, Hl. reflexivity.
Qed.

(** When the active piece is valid and each of its four orientations is
    legally placed at the anchor, four rotations in a row return, use no
    wall kick and give the state back. *)
Theorem rotateTetromino_period (s : State) :
  validPiece (currentTetromino s) ->
  isLegal (turned (currentTetromino s) 1) (grid s) = Ok true ->
  isLegal (turned (currentTetromino s) 2) (grid s) = Ok true ->
  isLegal (turned (currentTetromino s) 3) (grid s) = Ok true ->
  isLegal (currentTetromino s) (grid s) = Ok true ->
  rotateTetromino s = Ok (withCurrent s (turned (currentTetromino s) 1))
  /\ rotateTetromino4 s = Ok s.
Proof.
  intros Hv H1 H2 H3 H0.
  destruct (validPiece_turned _ Hv) as (_ & E2 & E3 & E4 & V1 & V2 & V3).
  pose proof (rotateTetromino_turn s Hv H1) as R1.
  split; [exact R1|]. unfold rotateTetromino4. rewrite R1. cbn [bind].
  rewrite rotateTetromino_turn;
    cbn [currentTetromino withCurrent grid]; rewrite ?E2; try assumption.
  cbn [bind].
  rewrite rotateTetromino_turn;
    cbn [currentTetromino withCurrent grid]; rewrite ?E3; try assumption.
  cbn [bind].
  rewrite rotateTetromino_turn;
    cbn [currentTetromino withCurrent grid]; rewrite ?E4; try assumption.
  destruct s as [e p r g c n h l sc hs]. reflexivity.
Qed.

Lemma rotateTetromino_period_witness :
  rotateTetromino4 fallingI = Ok fallingI.
Proof.
  apply (rotateTetromino_period fallingI); try reflexivity.
  exact (validPiece_withXY _ 3 1 (spawned_valid "I" eq_refl)).
Defined.

(** ** A drop longer than the grid is high *)

Lemma play_reachable (seed : float) (fuel : nat) (inputs : list Input) :
  forall s, play seed fuel inputs = Ok s -> reachable seed s.
Proof.
  unfold play. induction inputs as [|i inputs IH] using rev_ind; intros s.
  - cbn [fold_left]. apply reach_init.
  - rewrite fold_left_app. cbn [fold_left].
    destruct (fold_left _ inputs (INITIAL_STATE seed)) as [s0| |];
      cbn [bind]; try discriminate.
    intros H. apply (reach_step seed s0 s fuel i); [|exact H].
    apply IH. reflexivity.
Qed.

(** C8, as stated, fails.  In the play [kickedUp] the I piece, upright
    between two towers that reach the top row, is turned again; the turn
    kicks it two rows up, and it is moved to the left wall: it lies flat
    with its cells on row -2 (anchor row -4) above an empty floor.
    [dropTetromino] then translates it 21 times, to anchor row 17: more
    often than the grid is high. *)
Lemma dropTetromino_exceeds_grid_height :
  play 0%float 40 kickedUp = Ok liftedI
  /\ reachable 0%float liftedI
  /\ hasCell (shape (currentTetromino liftedI)) = true
  /\ y (currentTetromino liftedI) = Num (-4)
  /\ dropTetromino 21 liftedI = OutOfFuel
  /\ (exists s', dropTetromino 22 liftedI = Ok s'
                 /\ y (currentTetromino s') = Num 17)
  /\ GRID_HEIGHT < 17 - (-4).
Proof.
  assert (play 0%float 40 kickedUp = Ok liftedI) as Hplay
    by (vm_compute; reflexivity).
  split; [exact Hplay|].
  split; [exact (play_reachable _ _ _ _ Hplay)|].
  split; [vm_compute; reflexivity|].
  split; [vm_compute; reflexivity|].
  split; [vm_compute; reflexivity|].
  split; [|reflexivity].
  eexists. split; vm_compute; reflexivity.
Qed.

(** ** The O piece in play *)

(** C4, as the code has it.  In every state reached in play whose active
    piece is an O piece, the piece turned in place is legally placed:
    [rotateTetromino] returns from its first test, before any kick offset
    is attempted, and gives the state with the orientation of the piece
    advanced by one, its shape and its position as they were. *)
Theorem rotateTetromino_O_in_play (seed : float) (s : State) :
  reachable seed s ->
  key (currentTetromino s) = "O" ->
  rotateMatrix (shape (currentTetromino s)) = Ok (shape (currentTetromino s))
  /\ isLegal (rotated (currentTetromino s) (shape (currentTetromino s))) (grid s)
     = Ok true
  /\ rotateTetromino s =
       Ok (withCurrent s
             (mkTetromino "O" (Z.rem (orientation (currentTetromino s) + 1) 4)
                          (shape (currentTetromino s))
                          (colour (currentTetromino s))
                          (x (currentTetromino s)) (y (currentTetromino s)))).
Proof.
  intros Hr Hk.
  destruct (reachable_wellFormed seed s Hr) as (_ & Hv & Hl & _).
  pose proof (validPiece_O_turn _ Hv Hk) as Hturn.
  assert (isLegal (rotated (currentTetromino s) (shape (currentTetromino s)))
                  (grid s) = Ok true) as Hl'
    by (unfold isLegal in *; cbn [rotated x y shape]; exact Hl).
  split; [exact Hturn|]. split; [exact Hl'|].
  rewrite (rotateTetromino_unfold s _ Hturn), Hl'. cbn [bind].
  unfold rotated. rewrite Hk. reflexivity.
Qed.

Lemma rotateTetromino_O_in_play_witness :
  rotateTetromino (startOf sampleSeed) =
    Ok (withCurrent (startOf sampleSeed)
          (mkTetromino "O" 1 (matrix [[1; 1]; [1; 1]]) "yellow" (Num 4) (Num (-2)))).
Proof.
  destruct (rotateTetromino_O_in_play sampleSeed (startOf sampleSeed))
    as (_ & _ & H).
  - apply reach_init. vm_compute. reflexivity.
  - reflexivity.
  - exact H.
Defined.

(** ** A settled piece is merged into the grid *)

Lemma nth_error_mapFrom {A B : Type} (f : A -> Z -> B) (l : list A) :
  forall i n a, nth_error l n = Some a ->
                nth_error (mapFrom f i l) n = Some (f a (i + Z.of_nat n)).
Proof.
  induction l as [|b l IH]; intros i n a Hn.
  - destruct n; discriminate Hn.
  - cbn [mapFrom]. destruct n as [|n].
    + injection Hn as <-. cbn [nth_error]. f_equal. f_equal. lia.
    + cbn [nth_error] in *. rewrite (IH (i + 1) n a Hn). f_equal. f_equal. lia.
Qed.

Lemma cell_at (m : Matrix) (r c : nat) (row : list value) (v : value) :
  nth_error m r = Some row -> nth_error row c = Some v -> cell m r c = v.
Proof.
  intros Hr Hc. unfold cell. rewrite (nth_error_nth _ _ _ Hr).
  apply nth_error_nth, Hc.
Qed.

Lemma cell_is1 (m : Matrix) (r c : nat) :
  is1 (cell m r c) = true ->
  exists row, nth_error m r = Some row /\ nth_error row c = Some (Num 1).
Proof.
  unfold cell. intros H.
  destruct (nth_error m r) as [row|] eqn:Er.
  - rewrite (nth_error_nth _ _ _ Er) in H.
    destruct (nth_error row c) as [v|] eqn:Ec.
    + rewrite (nth_error_nth _ _ _ Ec) in H. exists row. split; [reflexivity|].
      destruct v as [[|[| |]|]| |]; try discriminate H. exact Ec.
    + rewrite nth_overflow in H by (apply nth_error_None; exact Ec).
      discriminate H.
  - rewrite (nth_overflow m) in H by (apply nth_error_None; exact Er).
    destruct c; discriminate H.
Qed.

Lemma shapeAt_inside (sh : Matrix) (i j : nat) (row : list value) (v : value) :
  nth_error sh i = Some row -> nth_error row j = Some v ->
  shapeAt sh (Num (Z.of_nat i)) (Num (Z.of_nat j)) = v.
Proof.
  intros Hi Hj. unfold shapeAt, cellAt. rewrite lookup_nat, Hi, lookup_nat, Hj.
  reflexivity.
Qed.

Lemma shapeAt_outside (sh : Matrix) (i j : Z) :
  shapeOkB sh = true ->
  i < 0 \/ Z.of_nat (List.length sh) <= i
  \/ j < 0 \/ Z.of_nat (List.length sh) <= j ->
  shapeAt sh (Num i) (Num j) = undefined.
Proof.
  intros Hsh Hout. unfold shapeAt, lookup.
  destruct (Z.ltb_spec i 0) as [_|Hi]; [reflexivity|].
  destruct (nth_error sh (Z.to_nat i)) as [row|] eqn:Er; [|reflexivity].
  destruct (shapeOkB_cell _ Hsh _ _ Er) as [Hlen _].
  assert (Z.to_nat i < List.length sh)%nat as Hlt
    by (apply nth_error_Some; congruence).
  unfold cellAt, lookup.
  destruct (Z.ltb_spec j 0) as [_|Hj]; [reflexivity|].
  destruct (nth_error row (Z.to_nat j)) as [v|] eqn:Ec; [|reflexivity].
  assert (Z.to_nat j < List.length row)%nat as Hlt'
    by (apply nth_error_Some; congruence).
  lia.
Qed.

(** On a well-formed grid, merging a piece that sits on free cells within
    the walls makes a cell occupied exactly when it was occupied or the
    piece has an occupied cell there. *)
Lemma updateGrid_cell (g : Matrix) (t : Tetromino) (x0 y0 : Z) (merged : Matrix) :
  gridShape g -> shapeOkB (shape t) = true ->
  x t = Num x0 -> y t = Num y0 ->
  isCollision (Num x0) (Num y0) (shape t) g = Ok false ->
  updateGrid g t = Ok merged ->
  forall r c, (r < Z.to_nat GRID_HEIGHT)%nat -> (c < Z.to_nat GRID_WIDTH)%nat ->
    is1 (cell merged r c) = is1 (cell g r c) || covers t r c.
Proof.
  intros [Hh Hrows] Hsh Hx Hy Hcol Hm r c Hr Hc.
  unfold updateGrid in Hm. rewrite Hx, Hy in Hm.
  destruct (shape t) as [|row0 rest] eqn:Es; [discriminate Hsh|].
  rewrite <- Es in *. injection Hm as <-.
  assert (List.length row0 = List.length (shape t)) as Hrow0.
  { apply (shapeOkB_cell _ Hsh 0%nat row0). rewrite Es. reflexivity. }
  destruct (nth_error g r) as [grow|] eqn:Eg;
    [|apply nth_error_None in Eg; unfold fullHeight in Hh; lia].
  rewrite Forall_forall in Hrows.
  destruct (Hrows grow (nth_error_In _ _ Eg)) as [Hlen Hbin].
  destruct (nth_error grow c) as [v|] eqn:Ev;
    [|apply nth_error_None in Ev; lia].
  rewrite Forall_forall in Hbin.
  pose proof (Hbin v (nth_error_In _ _ Ev)) as Hv.
  rewrite (cell_at g r c grow v Eg Ev).
  unfold mapi.
  rewrite (cell_at _ r c _ _ (nth_error_mapFrom _ g 0 r grow Eg)
                   (nth_error_mapFrom _ grow 0 c v Ev)).
  unfold covers. rewrite Hx, Hy. cbn [vge vlt vadd vsub].
  replace (0 + Z.of_nat r) with (Z.of_nat r) by lia.
  replace (0 + Z.of_nat c) with (Z.of_nat c) by lia.
  destruct (Z.leb_spec y0 (Z.of_nat r)) as [Hy1|Hy1];
    [|rewrite shapeAt_outside by (assumption || lia);
      cbn [andb is1]; rewrite orb_false_r; reflexivity].
  destruct (Z.ltb_spec (Z.of_nat r) (y0 + Z.of_nat (List.length (shape t))))
    as [Hy2|Hy2];
    [|rewrite shapeAt_outside by (assumption || lia);
      cbn [andb is1]; rewrite orb_false_r; reflexivity].
  destruct (Z.leb_spec x0 (Z.of_nat c)) as [Hx1|Hx1];
    [|rewrite shapeAt_outside by (assumption || lia);
      cbn [andb is1]; rewrite orb_false_r; reflexivity].
  destruct (Z.ltb_spec (Z.of_nat c) (x0 + Z.of_nat (List.length row0)))
    as [Hx2|Hx2];
    [|rewrite shapeAt_outside by (assumption || lia);
      cbn [andb is1]; rewrite orb_false_r; reflexivity].
  cbn [andb].
  replace (Z.of_nat r - y0) with (Z.of_nat (Z.to_nat (Z.of_nat r - y0))) by lia.
  replace (Z.of_nat c - x0) with (Z.of_nat (Z.to_nat (Z.of_nat c - x0))) by lia.
  destruct (nth_error (shape t) (Z.to_nat (Z.of_nat r - y0))) as [srow|] eqn:Er;
    [|apply nth_error_None in Er; lia].
  destruct (shapeOkB_cell _ Hsh _ _ Er) as [Hsl Hsb].
  destruct (nth_error srow (Z.to_nat (Z.of_nat c - x0))) as [w|] eqn:Ec;
    [|apply nth_error_None in Ec; lia].
  rewrite (shapeAt_inside _ _ _ _ _ Er Ec).
  rewrite lookup_nat, Er, lookup_nat, Ec.
  destruct (binary_cases w (Hsb _ _ Ec)) as [-> | ->].
  - rewrite vadd_binary_zero by assumption. cbn [is1].
    rewrite orb_false_r. reflexivity.
  - destruct (isCollision_false_cell x0 y0 _ g Hcol _ _ _ _ Er Ec eq_refl)
      as (_ & _ & Hg).
    replace (y0 + Z.of_nat (Z.to_nat (Z.of_nat r - y0))) with (Z.of_nat r) in Hg by lia.
    replace (x0 + Z.of_nat (Z.to_nat (Z.of_nat c - x0))) with (Z.of_nat c) in Hg by lia.
    specialize (Hg ltac:(lia)). unfold gridIs1 in Hg.
    rewrite lookup_nat, Eg in Hg. unfold cellAt in Hg.
    rewrite lookup_nat, Ev in Hg. injection Hg as Hg.
    rewrite (binary_not_one v Hv Hg). reflexivity.
Qed.

(** A piece on free cells within the walls, none of whose occupied cells is
    above the top row, has all its occupied cells on free cells of the
    grid. *)
Lemma piece_cells_on_grid (g : Matrix) (t : Tetromino) (x0 y0 : Z) :
  gridShape g ->
  x t = Num x0 -> y t = Num y0 ->
  isCollision (Num x0) (Num y0) (shape t) g = Ok false ->
  overlapsTop t = false ->
  forall i j, is1 (cell (shape t) i j) = true ->
    exists r c,
      Z.of_nat r = y0 + Z.of_nat i /\ Z.of_nat c = x0 + Z.of_nat j
      /\ (r < Z.to_nat GRID_HEIGHT)%nat /\ (c < Z.to_nat GRID_WIDTH)%nat
      /\ cell g r c = Num 0
      /\ covers t r c = true.
Proof.
  intros [Hh Hrows] Hx Hy Hcol Htop i j H1.
  destruct (cell_is1 _ _ _ H1) as [srow [Er Ec]].
  destruct (isCollision_false_cell x0 y0 _ g Hcol _ _ _ _ Er Ec eq_refl)
    as (Hcx & Hcy & Hg).
  unfold overlapsTop, some in Htop.
  pose proof (someFrom_false_at _ _ 0 Htop i srow Er) as Hrow.
  cbn beta in Hrow. rewrite Hy in Hrow. cbn [vadd vlt] in Hrow.
  assert (existsb is1 srow = true) as Hex.
  { apply existsb_exists. exists (Num 1). split; [|reflexivity].
    apply (nth_error_In _ _ Ec). }
  rewrite Hex in Hrow. cbn [andb] in Hrow.
  apply Z.ltb_ge in Hrow.
  unfold GRID_HEIGHT, GRID_WIDTH in *.
  exists (Z.to_nat (y0 + Z.of_nat i)), (Z.to_nat (x0 + Z.of_nat j)).
  split; [lia|]. split; [lia|]. split; [lia|]. split; [lia|].
  specialize (Hg ltac:(lia)). unfold gridIs1 in Hg.
  replace (y0 + Z.of_nat i) with (Z.of_nat (Z.to_nat (y0 + Z.of_nat i))) in Hg by lia.
  replace (x0 + Z.of_nat j) with (Z.of_nat (Z.to_nat (x0 + Z.of_nat j))) in Hg by lia.
  rewrite lookup_nat in Hg.
  destruct (nth_error g (Z.to_nat (y0 + Z.of_nat i))) as [grow|] eqn:Eg;
    [|discriminate Hg].
  unfold cellAt in Hg. rewrite lookup_nat in Hg.
  rewrite Forall_forall in Hrows.
  destruct (Hrows grow (nth_error_In _ _ Eg)) as [Hlen Hbin].
  destruct (nth_error grow (Z.to_nat (x0 + Z.of_nat j))) as [v|] eqn:Ev;
    [|apply nth_error_None in Ev; lia].
  injection Hg as Hg. rewrite Forall_forall in Hbin.
  split.
  - rewrite (cell_at _ _ _ _ _ Eg Ev).
    apply binary_not_one; [apply Hbin, (nth_error_In _ _ Ev)|exact Hg].
  - unfold covers. rewrite Hx, Hy. cbn [vsub].
    replace (Z.of_nat (Z.to_nat (y0 + Z.of_nat i)) - y0) with (Z.of_nat i) by lia.
    replace (Z.of_nat (Z.to_nat (x0 + Z.of_nat j)) - x0) with (Z.of_nat j) by lia.
    rewrite (shapeAt_inside _ _ _ _ _ Er Ec). reflexivity.
Qed.

Lemma is1_true (v : value) : is1 v = true -> v = Num 1.
Proof.
  destruct v as [[|[| |]|]| |]; try discriminate. reflexivity.
Qed.

(** C6.  Take a state with a well-formed grid whose active piece, a square
    matrix of cells 0 and 1 at integer coordinates, is legally placed and
    settled, and for which the end condition of the specification does not
    hold: no occupied cell of the piece is above the top row.  When the
    score is an exact integer, [tick] returns the state whose grid is the
    old grid with the piece merged and the full rows cleared.  Merged means:
    the merged grid is well-formed again, a cell of it is occupied exactly
    when it was occupied before or the piece has an occupied cell there, and
    every occupied cell of the piece lies on a cell of the grid that was
    free and is now occupied.  The score is the old score plus 100 for each
    cleared row, the level is the floor of the new score over 1000, the high
    score is the larger of the old high score and the new score, the active
    piece is the old next piece and the next piece is the one drawn from
    [rng]; the flags and the held piece stay. *)
Theorem tick_settled_merges (s : State) (rng : float) (nxt : Tetromino) (x0 y0 : Z) :
  gridShape (grid s) ->
  shapeOkB (shape (currentTetromino s)) = true ->
  x (currentTetromino s) = Num x0 -> y (currentTetromino s) = Num y0 ->
  isLegal (currentTetromino s) (grid s) = Ok true ->
  isSettled (currentTetromino s) (grid s) = Ok true ->
  overlapsTop (currentTetromino s) = false ->
  exactInt (score s) ->
  getRandomTetromino rng = Ok nxt ->
  exists merged,
    updateGrid (grid s) (currentTetromino s) = Ok merged
    /\ gridShape merged
    /\ (forall r c,
          (r < Z.to_nat GRID_HEIGHT)%nat -> (c < Z.to_nat GRID_WIDTH)%nat ->
          is1 (cell merged r c)
          = is1 (cell (grid s) r c) || covers (currentTetromino s) r c)
    /\ (forall i j,
          is1 (cell (shape (currentTetromino s)) i j) = true ->
          exists r c,
            Z.of_nat r = y0 + Z.of_nat i /\ Z.of_nat c = x0 + Z.of_nat j
            /\ (r < Z.to_nat GRID_HEIGHT)%nat /\ (c < Z.to_nat GRID_WIDTH)%nat
            /\ cell (grid s) r c = Num 0
            /\ cell merged r c = Num 1)
    /\ let cleared := fst (clearCompletedRows merged) in
       let rows := snd (clearCompletedRows merged) in
       let newScore := score s + 100 * rows in
       rows = Z.of_nat (List.length (filter isFull merged))
       /\ tick s rng =
            Ok (mkState (gameEnd s) (gamePause s) (gameRestart s)
                        cleared (nextTetromino s) nxt (holdTetromino s)
                        (newScore / 1000) newScore
                        (Z.max (highScore s) newScore)).
Proof.
  intros Hg Hsh Hx Hy Hl Hset Htop _ Hrng.
  apply isLegal_true_iff in Hl. destruct Hl as [Hcol _].
  rewrite Hx, Hy in Hcol.
  destruct (updateGrid_gridShape _ _ x0 y0 Hg Hsh Hx Hy Hcol)
    as [merged [Hm Hms]].
  pose proof (updateGrid_cell _ _ x0 y0 merged Hg Hsh Hx Hy Hcol Hm) as Hcells.
  assert (isGameEnd s = Ok false) as Hend.
  { unfold isGameEnd. rewrite Hset. cbn [bind andb].
    destruct (vlt (y (currentTetromino s)) (Num 0)) eqn:Hneg; [|reflexivity].
    destruct (shape (currentTetromino s)) as [|row0 rest] eqn:Es;
      [discriminate Hsh|].
    destruct (existsb is1 row0) eqn:Hrow0; [|reflexivity].
    rewrite (overlapsTop_first_row (currentTetromino s)) in Htop;
      [discriminate Htop|exact Hneg|rewrite Es; exact Hrow0]. }
  exists merged. split; [exact Hm|]. split; [exact Hms|].
  split; [exact Hcells|]. split.
  { intros i j H1.
    destruct (piece_cells_on_grid _ _ x0 y0 Hg Hx Hy Hcol Htop i j H1)
      as (r & c & Hr & Hc & Hrlt & Hclt & Hfree & Hcov).
    exists r, c. repeat (split; [assumption|]).
    apply is1_true. rewrite (Hcells r c Hrlt Hclt), Hcov. apply orb_true_r. }
  cbn zeta.
  split; [rewrite (clearCompletedRows_rows merged); reflexivity|].
  unfold tick. rewrite Hend. cbn [bind]. rewrite Hset. cbn [bind].
  rewrite Hm. cbn [bind].
  destruct (clearCompletedRows merged) as [cleared rows]. cbn [fst snd].
  rewrite Hrng. cbn [bind].
  replace (rows * 100) with (100 * rows) by lia.
  f_equal. f_equal.
  destruct (Z.ltb_spec (highScore s) (score s + 100 * rows)); lia.
Qed.

Lemma tick_settled_merges_witness :
  exists merged,
    updateGrid (grid restingO) (currentTetromino restingO) = Ok merged
    /\ cell merged 18 4 = Num 1 /\ cell merged 19 5 = Num 1
    /\ snd (clearCompletedRows merged) = 0
    /\ tick restingO sampleSeed =
         Ok (mkState false false false merged (spawned "T") (spawned "O") None 0 0 0).
Proof.
  destruct (tick_settled_merges restingO sampleSeed (spawned "O") 4 18)
    as (merged & Hm & _ & _ & _ & _ & Htick);
    try (vm_compute; reflexivity).
  - apply gridOk_gridShape, emptyGrid_gridOk.
  - unfold exactInt, EXACT_RANGE. cbn [score restingO running]. lia.
  - exists merged. split; [exact Hm|].
    vm_compute in Hm. injection Hm as <-.
    split; [reflexivity|]. split; [reflexivity|].
    split; [vm_compute; reflexivity|]. exact Htick.
Defined.
